(* ===== verification/_CoqProject ===== *)
-Q . S2P
Prelude.v
JsString.v
Uri.v
FileSystem.v
Api.v
Routing.v
Gallery.v
Viewer.v
Page.v
Client.v
KeyListener.v
