(* ===== verification/Prelude.v ===== *)
(** * Glomeruli viewer: a verification development

    The program (src/) is a Next.js application that browses a fixed set of
    kidney-biopsy ROI images and their segmentation masks.  Its parts are

    - three HTTP route handlers that read the file system through Node's
      [fs] and [path]: [src/app/api/images/route.ts] (the listing),
      [src/app/api/images/[filename]/route.ts] (one image),
      [src/app/api/masks/[filename]/route.ts] (one mask);
    - the rewrite table of [src/next.config.js] ([/images/*] and [/masks/*]
      to those handlers);
    - the page [Home] ([src/app/page.tsx]): it fetches the listing once on
      mount, keeps the selected image and the stain tab, and passes its
      tab-filtered list to
    - the gallery [ImageViewer] ([src/app/components/ImageViewer.tsx]:
      search filter, grid/list mode, label derivation, item click calling
      [onImageSelect]) and
    - the full-screen viewer [FullPageViewer]
      ([src/app/components/FullPageViewer.tsx]: keyboard and button
      navigation calling [onImageChange], [onClose], the mask overlay with
      its toggle, opacity and load/error flags).
    The browser loads [/jpegs/<f>] (static files of [public/]) for the
    images and [/masks/<f>] (rewritten to the mask route) for the overlay.

    ** Files, and what each models

    - [Prelude] (this file): the scope [glom_scope] with the notation
      [xs.[i]] for JavaScript's [xs[i]] ([js_at]: [None] for [undefined]),
      [find_index] for [Array.prototype.findIndex] (-1 when absent), the
      hint databases [glom] and [glom_rw], and generic list lemmas.
    - [JsString]: the string built-ins the code calls, as Fixpoints
      ([startsWith], [endsWith], [includes], [replace] (first occurrence),
      [split] and [join] on one character, [toLowerCase] on ASCII), each
      characterised by concatenation ([startsWith_spec], [includes_spec],
      [replace_first], [split_join], [join_split]).
    - [Uri]: [Module Uri], [decodeURIComponent] after ECMA-262's Decode
      ([lex] for the [%XY] escapes, [decode] one code point at a time,
      [utf8_char] the well-formed UTF-8 sequences of Unicode's Table 3-7),
      with the lemmas the routing proofs use.
    - [FileSystem]: the interface the handlers are proved against,
      [Class FileSystem] ([readdirSync], [existsSync], [readFileSync] and
      three laws: a readable file exists, directory entries are plain
      segments, a directory lists no name twice); [path_join], Node's
      [path.join] (split on [/], drop [""] and [.], [..] pops); an
      in-memory instance [MemFS] on stdpp [gmap].
    - [Api]: [Module ImagesRoute], [Module ImageFileRoute],
      [Module MaskRoute] (each [GET] is the handler, with its path helper),
      the response bodies, and a concrete deployment [demo_fs].
    - [Routing]: [Module Server], how a URL reaches a handler: the request
      path up to [?] or [#] ([url_path]), [Uri.decodeURIComponent] of
      each segment (a [URIError] answered 400), then [handle]:
      public files, app routes, and [rewrites] from next.config.js, in
      that order ([serve] composes them); [url_safe] names the file names
      that survive this unchanged.
    - [Gallery]: [ImageData], [Module ImageViewer] (state, [matches],
      [filteredImages], [getImageLabel], [showsEmptyState], [step] for its
      three handlers, [render] for what it shows: the count line, one
      [Tile] per match, the empty message), and the setoid [ci_equiv]
      (same lowercase form) with [Proper] instances for the filter.
    - [Viewer]: [Module FullPageViewer] (the five state hooks with the
      opacity in tenths, [currentIndex], [goToPrevious], [goToNext] over
      [previousAt] / [nextAt], [handleKeyDown] as the closure [listener]
      over the values it [capture]s, [resetOnImageChange], its own copy of
      [getImageLabel], [react] for every control, [enabled] for the
      rendering conditions, [render] for the whole rendered [View]) and
      [Module ViewerSpec], the spec's machine (closed, or open on a file
      with the overlay off, loading, shown or failed) with [phase_of].
    - [Page]: [Module Home] (state, [fetchImages], [filteredImages],
      [heCount], [pasCount], the callbacks, [render] for the loading
      branch and the main markup).
    - [Client]: [Module Client], the whole client as one executable
      transition function [dispatch] on [App] (page state, gallery state,
      the viewer's state while mounted), with [reachable] (rule-induction
      closure from the first render), [reachable_on] (the same when the
      fetch of [/api/images] gets the answer of a given server,
      [served_fetch]), [step] and stdpp's [rtc] for liveness, [run] (a list
      of events), and [commitImage] / [runEffects], an image change split
      into React's commit and its effect.
    - [KeyListener]: [Module KeyListener], the client that also carries
      the [keydown] closure registered on [window], re-registered after a
      commit when the effect's dependency array ([keydownDeps]) changed
      ([refresh]); a key press runs the registered closure ([ldispatch]).

    ** What is proved (the claims C1..C40 of PROJECT.json)

    - Invariant and refinement of the client: every reachable state keeps
      the viewer mounted exactly while an image is selected, the selection
      among the fetched images and the opacity among the slider's values
      ([Client.reachable_invariant]); every event is a transition of the
      spec's viewer machine or a stutter, an image change included
      ([Client.dispatch_refines_spec]); what the page renders matches that
      state ([Client.render_reflects_client]).
    - Type of the data: against a server, every image record is a plain,
      distinct [.jpg] name with its [/jpegs/] url
      ([Client.served_images_wellformed]), and what the open viewer
      requests for a URL-safe name is served by the right handler
      ([Client.served_viewer_requests]).
    - Navigation: exact characterisation of [goToNext] and [goToPrevious]
      (never [undefined]), no wrap-around, the round trip right-left
      ([Viewer.navigation_roundtrip]) and termination of repeated presses
      ([Viewer.navigation_terminates]) for distinct names (which a served
      listing guarantees), the jump to the first image when the selection
      is not in the list, and that a new selection always comes from the
      tab list while [ArrowRight] walks that list whatever the search
      ([Client.navigation_leaves_search_results]).
    - Closures: the dependency array of the [keydown] effect is
      complete, so the registered listener never acts on stale values and
      the client with the listener does what [Client.dispatch] does
      ([KeyListener.listener_never_stale]).
    - Liveness: the loading indicators of the open viewer can always clear
      ([Client.loading_indicators_settle]); every image of the tab list
      can be opened from every reachable state
      ([Client.any_listed_image_opens]).
    - Ordering: the reset effect must run before the new image's [load]
      ([Client.image_change_effect_order]); the main image's [load]
      commutes with every viewer input that calls nothing back, so its
      delivery order does not matter ([Client.image_load_commutes]);
      every image change clears the load flags and keeps the overlay
      toggle and opacity ([Client.image_change_resets_flags]).
    - Routes and routing: the listing returns exactly the [.jpg] entries;
      the image route's three outcomes; the mask name replaces the first
      [.jpg] only; the mask route's outcomes; the rewrites make
      [/images/*], [/masks/*] equivalent to [/api/images/*], [/api/masks/*]
      ([Routing.rewrites_equivalence]); the path traversal, reached from a
      request by a decoded [%2F] ([Routing.ImageFileRoute_GET_traversal]);
      URL-safe listed names are served at the page's URLs from the
      listing's directory ([Client.fetched_images_served]); for every
      listed name the server looks up [decodeURIComponent] of its part
      before [?] or [#], not the name ([Client.listed_names_misserved]);
      the listing and the image route read different directories, so
      [/images/<name>] misses a listed file
      ([Routing.listing_not_served_by_image_route]).
    - Gallery and page: search case-insensitive on term and file name;
      label derivation on seven or more and on fewer parts; the
      rendered tiles and what a click on each selects; tab filter and
      counts; the fetch's success and failure paths end to end.

    ** Modelling choices and bounds

    - JavaScript strings are Rocq [string]s of 8-bit characters;
      [toLowerCase] is modelled on ASCII letters only.
    - The opacity slider ([min=0.1 max=1 step=0.1]) only produces
      0.1 .. 1.0; the opacity is kept in tenths ([Z], 1 .. 10), and the
      browser's clamping of the range input is [rangeValue].
    - React: one event updates state at once; an effect keyed on
      [image.filename] runs with the event that changed the file name (the
      order React 18 guarantees for updates from a click or a keydown;
      [commitImage] and [runEffects] model the two phases apart, and
      [Client.selectImage_phases] relates them to the atomic step); the
      viewer's state lives exactly while it is rendered.  Which controls
      exist is [FullPageViewer.enabled], which agrees with [render]
      ([Viewer.enabled_render]), and the guards of [dispatch].
    - The gallery stays mounted under the viewer, so [dispatch] accepts
      gallery events while the viewer is open; the liveness path of
      [Client.any_listed_image_opens] closes the viewer first and uses only
      events a user can produce.
    - The Next.js server is framework code outside src/: its handling of
      a URL ([Routing.Server]) is modelled from the spec and from the
      HTTP rules it follows; only [rewrites] translates code.
    - Nothing loops: every model is a structural Fixpoint, no fuel; the
      termination of navigation is well-foundedness of the step relation,
      by the measure [length - currentIndex].

    ** Not modelled

    - Logging, CSS classes and static text, HTTP headers other than
      status, content type and cache directive (the mask is stretched by
      CSS; the server-side resize in the mask route is commented out).
    - Image decoding: a load is an event that succeeds or fails.
    - URLs: strings are bytes, and a decoded code point is kept as its
      UTF-8 bytes rather than as UTF-16 code units (Node converts a name
      back to UTF-8 for the file system, so the two agree on well-formed
      text); the browser's own percent-encoding of characters such as
      spaces is left out, since the server decodes it back.  [images.unoptimized] of next.config.js only concerns
      [next/image], which the code does not use.
    - React's StrictMode double effects (a second fetch in development).
    - The commented-out code: the sharp-based resize of the mask route
      (its lines 1-55) and the alternative paths in comments.
    - React 17's deferred passive effects: the [app] directory and
      ['use client'] are Next.js's app router, which runs on React 18 or
      later, where the effects of a render caused by a click or a key press
      run before the browser dispatches the next event; events between
      [commitImage] and [runEffects] are therefore only studied as the one
      order of [Client.image_change_effect_order].
    - Which [load] a browser still delivers for an [src] that was just
      replaced is the browser's choice, not the code's: the handlers do not
      look at the source.  [dispatch] accepts [ImageLoad], [MaskLoad] and
      [MaskFail] at every moment [FullPageViewer.enabled] says the element
      is rendered, so the invariants
      and refinements above hold for every delivery order, stale loads
      included. *)

From stdpp Require Export base list strings gmap.
From Stdlib Require Export ZArith Lia Ascii.

Declare Scope glom_scope.
Delimit Scope glom_scope with glom.
Open Scope glom_scope.

Create HintDb glom.
Create Rewrite HintDb glom_rw.

(** ** JavaScript arrays *)

(** [a[i]] on a JavaScript array: [undefined] (here [None]) outside
    [0 <= i < a.length]. *)
Definition js_at {A} (xs : list A) (i : Z) : option A :=
  if (i <? 0)%Z then None else xs !! Z.to_nat i.

Notation "xs .[ i ]" := (js_at xs i) (format "xs .[ i ]") : glom_scope.

(** [Array.prototype.findIndex]: the first index whose element satisfies
    [p], or [-1]; [find_index_from] is the scan from index [n]. *)
Fixpoint find_index_from {A} (p : A -> bool) (xs : list A) (n : Z) : Z :=
  match xs with
  | [] => (-1)%Z
  | x :: xs' => if p x then n else find_index_from p xs' (n + 1)
  end.

Definition find_index {A} (p : A -> bool) (xs : list A) : Z :=
  find_index_from p xs 0.

(** ** Generic lemmas *)

Lemma js_at_neg {A} (xs : list A) i : (i < 0)%Z -> xs.[i] = None.
Proof. intros H. unfold js_at. destruct (Z.ltb_spec i 0); [done | lia]. Qed.

Lemma js_at_nonneg {A} (xs : list A) i :
  (0 <= i)%Z -> xs.[i] = xs !! Z.to_nat i.
Proof. intros H. unfold js_at. destruct (Z.ltb_spec i 0); [lia | done]. Qed.

Lemma js_at_in_range {A} (xs : list A) i :
  (0 <= i < Z.of_nat (length xs))%Z -> exists x, xs.[i] = Some x /\ x ∈ xs.
Proof.
  intros H. rewrite js_at_nonneg by lia.
  destruct (lookup_lt_is_Some_2 xs (Z.to_nat i)) as [x Hx]; [lia |].
  exists x. split; [done |]. by eapply list_elem_of_lookup_2.
Qed.

Lemma js_at_Some_elem {A} (xs : list A) i x : xs.[i] = Some x -> x ∈ xs.
Proof.
  unfold js_at. destruct (i <? 0)%Z; [done |].
  intros H. by eapply list_elem_of_lookup_2.
Qed.

Lemma find_index_from_cases {A} (p : A -> bool) xs n :
  (find_index_from p xs n = (-1)%Z /\ Forall (fun x => p x = false) xs) \/
  ((n <= find_index_from p xs n < n + Z.of_nat (length xs))%Z /\
   exists x, xs !! Z.to_nat (find_index_from p xs n - n)%Z = Some x /\ p x = true).
Proof.
  revert n. induction xs as [|x xs IH]; intros n; simpl.
  - left. split; [done | constructor].
  - destruct (p x) eqn:Hp.
    + right. split; [lia |]. exists x. by rewrite Z.sub_diag.
    + destruct (IH (n + 1)%Z) as [[E F] | [R (y & Hy & Hpy)]].
      * left. split; [done | by constructor].
      * right. split; [lia |]. exists y. split; [| done].
        replace (Z.to_nat (find_index_from p xs (n + 1) - n))
          with (S (Z.to_nat (find_index_from p xs (n + 1) - (n + 1)))) by lia.
        done.
Qed.

Lemma find_index_range {A} (p : A -> bool) xs :
  (-1 <= find_index p xs < Z.of_nat (length xs))%Z.
Proof.
  unfold find_index. destruct (find_index_from_cases p xs 0) as [[-> _] | [R _]]; lia.
Qed.

Lemma find_index_minus_one {A} (p : A -> bool) xs :
  find_index p xs = (-1)%Z <-> Forall (fun x => p x = false) xs.
Proof.
  unfold find_index.
  destruct (find_index_from_cases p xs 0) as [[-> F] | [R (y & Hy & Hpy)]].
  - tauto.
  - split; [lia |]. intros F. rewrite Forall_forall in F.
    assert (y ∈ xs) as Hin by (eapply list_elem_of_lookup_2; eauto).
    specialize (F y Hin). congruence.
Qed.

Lemma find_index_Some {A} (p : A -> bool) xs :
  (0 <= find_index p xs)%Z ->
  exists x, xs.[find_index p xs] = Some x /\ p x = true.
Proof.
  intros Hi. unfold find_index in *.
  destruct (find_index_from_cases p xs 0) as [[E _] | [R (y & Hy & Hpy)]]; [lia |].
  exists y. rewrite js_at_nonneg by lia. rewrite Z.sub_0_r in Hy. done.
Qed.

Lemma find_index_elem {A} (p : A -> bool) xs x :
  x ∈ xs -> p x = true -> (0 <= find_index p xs)%Z.
Proof.
  intros Hx Hp. pose proof (find_index_range p xs).
  destruct (decide (find_index p xs = (-1)%Z)) as [E|E]; [|lia].
  apply find_index_minus_one in E. rewrite Forall_forall in E.
  specialize (E x Hx). congruence.
Qed.

(** The scan stops at the first element that satisfies [p]. *)
Lemma find_index_from_first {A} (p : A -> bool) xs n k x :
  xs !! k = Some x -> p x = true ->
  (forall j y, (j < k)%nat -> xs !! j = Some y -> p y = false) ->
  find_index_from p xs n = (n + Z.of_nat k)%Z.
Proof.
  revert n k. induction xs as [|y xs IH]; intros n k Hk Hp Hbefore; [done |].
  destruct k as [|k]; simpl in *.
  - injection Hk as ->. rewrite Hp. lia.
  - rewrite (Hbefore 0%nat y) by (done || lia).
    rewrite (IH (n + 1)%Z k) by (done || intros j z Hj; apply (Hbefore (S j)); lia). lia.
Qed.

(** With distinct keys, [findIndex] on the key of the [k]-th element finds [k]. *)
Lemma find_index_NoDup {A B} `{EqDecision B} (f : A -> B) xs k x :
  NoDup (f <$> xs) -> xs !! k = Some x ->
  find_index (fun y => bool_decide (f y = f x)) xs = Z.of_nat k.
Proof.
  intros Hnd Hk. unfold find_index. rewrite (find_index_from_first _ _ _ k x); [lia | done | |].
  - by apply bool_decide_eq_true_2.
  - intros j y Hj Hy. apply bool_decide_eq_false_2. intros Hf.
    assert (j = k) by (eapply NoDup_lookup; [exact Hnd | by rewrite list_lookup_fmap, Hy |
      by rewrite list_lookup_fmap, Hk, Hf]). lia.
Qed.

(** Distinct keys stay distinct in a sub-list. *)
Lemma NoDup_fmap_sublist {A B} (f : A -> B) (l1 l2 : list A) :
  l1 `sublist_of` l2 -> NoDup (f <$> l2) -> NoDup (f <$> l1).
Proof. intros Hs Hnd. eapply sublist_NoDup; [exact Hnd |]. by apply fmap_sublist. Qed.

Lemma filter_all {A} (P : A -> Prop) `{!forall x, Decision (P x)} (l : list A) :
  Forall P l -> filter P l = l.
Proof.
  induction 1 as [|x l Hx Hl IH]; [done |].
  rewrite filter_cons_True by done. by rewrite IH.
Qed.

Lemma filter_sublist_impl {A} (P Q : A -> Prop) `{!forall x, Decision (P x)}
    `{!forall x, Decision (Q x)} (l : list A) :
  (forall x, P x -> Q x) -> filter P l `sublist_of` filter Q l.
Proof.
  intros HPQ. induction l as [|x l IH]; [done |]. rewrite !filter_cons.
  destruct (decide (P x)) as [HP|HP].
  - rewrite decide_True by auto. by apply sublist_skip.
  - destruct (decide (Q x)); [by apply sublist_cons |done].
Qed.

Lemma length_filter_disjoint {A} (P Q : A -> Prop) `{!forall x, Decision (P x)}
    `{!forall x, Decision (Q x)} (l : list A) :
  (forall x, P x -> Q x -> False) ->
  length (filter P l) + length (filter Q l) <= length l.
Proof.
  intros HPQ. induction l as [|x l IH]; [done |]. rewrite !filter_cons.
  destruct (decide (P x)), (decide (Q x)); simpl; [exfalso; eauto | lia | lia | lia].
Qed.

Lemma Forall_sublist_of {A} (P : A -> Prop) (l1 l2 : list A) :
  l1 `sublist_of` l2 -> Forall P l2 -> Forall P l1.
Proof.
  intros Hs Hf. rewrite Forall_forall in Hf |- *. intros x Hx. apply Hf. by eapply elem_of_sublist.
Qed.

#[export] Hint Resolve js_at_Some_elem find_index_elem : glom.
