(* ===== verification/JsString.v ===== *)
(** * JavaScript string built-ins

    The string methods the program calls, as executable Fixpoints on Rocq
    strings: [s.startsWith(p)], [s.endsWith(p)], [s.includes(p)],
    [s.replace(p, r)] with a string pattern (first occurrence only),
    [s.split(c)] with a one-character separator, and [s.toLowerCase()]
    (ASCII letters).  Each comes with the lemma that characterises it by
    string concatenation; the components only use those lemmas. *)

From S2P Require Import Prelude.

Local Open Scope string_scope.

(** ** Concatenation algebra, through the list view of a string *)

Abbreviation lstr := String.list_ascii_of_string.

Lemma lstr_app (s t : string) : lstr (s ++ t) = (lstr s ++ lstr t)%list.
Proof. induction s; simpl; f_equal; auto. Qed.

Lemma lstr_inj (s t : string) : lstr s = lstr t -> s = t.
Proof.
  intros H. rewrite <- (String.string_of_list_ascii_of_string s), <- (String.string_of_list_ascii_of_string t).
  by rewrite H.
Qed.

Lemma lstr_length (s : string) : length (lstr s) = String.length s.
Proof. induction s; simpl; auto. Qed.

Lemma str_app_cons c (s t : string) : String c s ++ t = String c (s ++ t).
Proof. reflexivity. Qed.

Lemma str_app_nil_l (t : string) : "" ++ t = t.
Proof. reflexivity. Qed.

Lemma str_app_assoc (a b c : string) : a ++ b ++ c = (a ++ b) ++ c.
Proof. apply lstr_inj. rewrite !lstr_app. apply app_assoc. Qed.

Lemma str_app_nil_r (a : string) : a ++ "" = a.
Proof. apply lstr_inj. rewrite lstr_app. apply app_nil_r. Qed.

Lemma str_length_app (a b : string) :
  String.length (a ++ b) = String.length a + String.length b.
Proof. rewrite <- !lstr_length, lstr_app. apply length_app. Qed.

Lemma str_app_inv_l (a b c : string) : a ++ b = a ++ c -> b = c.
Proof. intros H. apply lstr_inj. apply (f_equal lstr) in H. rewrite !lstr_app in H. by simplify_list_eq. Qed.

Lemma str_app_eq_app (a b c d : string) :
  a ++ b = c ++ d ->
  (exists m, c = a ++ m /\ b = m ++ d) \/ (exists m, a = c ++ m /\ d = m ++ b).
Proof.
  intros H. apply (f_equal lstr) in H. rewrite !lstr_app in H.
  apply app_eq_inv in H as [(m & Ha & Hd) | (m & Hc & Hb)].
  - right. exists (String.string_of_list_ascii m). split; apply lstr_inj;
      rewrite ?lstr_app, String.list_ascii_of_string_of_list_ascii; done.
  - left. exists (String.string_of_list_ascii m). split; apply lstr_inj;
      rewrite ?lstr_app, String.list_ascii_of_string_of_list_ascii; done.
Qed.

#[export] Hint Rewrite lstr_app str_length_app str_app_nil_r str_app_nil_l str_app_cons : glom_rw.

(** ** [startsWith], [endsWith], [includes] *)

Fixpoint startsWith (s pre : string) : bool :=
  match pre, s with
  | EmptyString, _ => true
  | String c pre', String d s' => bool_decide (c = d) && startsWith s' pre'
  | String _ _, EmptyString => false
  end.

Fixpoint endsWith (s suf : string) : bool :=
  bool_decide (s = suf) ||
  match s with EmptyString => false | String _ s' => endsWith s' suf end.

Fixpoint includes (s sub : string) : bool :=
  startsWith s sub ||
  match s with EmptyString => false | String _ s' => includes s' sub end.

Lemma startsWith_spec s pre : startsWith s pre = true <-> exists r, s = pre ++ r.
Proof.
  revert s. induction pre as [|c pre IH]; intros [|d s]; simpl.
  - split; eauto.
  - split; eauto.
  - split; [done | intros [r Hr]; discriminate].
  - rewrite andb_true_iff, bool_decide_eq_true, IH. split.
    + intros [-> [r ->]]. eauto.
    + intros [r Hr]. injection Hr as -> ->. eauto.
Qed.

Lemma endsWith_spec s suf : endsWith s suf = true <-> exists x, s = x ++ suf.
Proof.
  induction s as [|c s IH]; simpl; rewrite orb_true_iff, bool_decide_eq_true.
  - split; [intros [<- | ?]; [by exists "" | discriminate] |].
    intros [[|? ?] Hx]; [by left | discriminate].
  - rewrite IH. split.
    + intros [<- | [x ->]]; [by exists "" | by exists (String c x)].
    + intros [[|c' x] Hx]; [by left |]. injection Hx as -> ->. eauto.
Qed.

Lemma includes_spec s sub :
  includes s sub = true <-> exists x y, s = x ++ sub ++ y.
Proof.
  induction s as [|c s IH]; cbn [includes]; rewrite orb_true_iff, startsWith_spec.
  - split.
    + intros [[r Hr] | ?]; [by exists "", r | discriminate].
    + intros ([|? ?] & y & Hy); [left; by exists y | discriminate].
  - rewrite IH. split.
    + intros [[r Hr] | (x & y & ->)]; [by exists "", r | by exists (String c x), y].
    + intros ([|c' x] & y & Hxy); [left; by exists y |].
      injection Hxy as -> ->. right. eauto.
Qed.

Lemma startsWith_app s t pre : startsWith s pre = true -> startsWith (s ++ t) pre = true.
Proof.
  rewrite !startsWith_spec. intros [r ->]. exists (r ++ t). symmetry. apply str_app_assoc.
Qed.

(** ** [replace] with a string pattern: only the first occurrence *)

Fixpoint str_drop (n : nat) (s : string) : string :=
  match n, s with
  | O, _ => s
  | S n', String _ s' => str_drop n' s'
  | S _, EmptyString => EmptyString
  end.

Lemma str_drop_app a b : str_drop (String.length a) (a ++ b) = b.
Proof. induction a; simpl; auto. Qed.

Fixpoint replace (s pat rep : string) : string :=
  if startsWith s pat then rep ++ str_drop (String.length pat) s
  else match s with
       | EmptyString => EmptyString
       | String c s' => String c (replace s' pat rep)
       end.

Lemma replace_absent s pat rep : includes s pat = false -> replace s pat rep = s.
Proof.
  induction s as [|c s IH]; simpl; intros H; apply orb_false_iff in H as [H1 H2].
  - by rewrite H1.
  - rewrite H1. f_equal. auto.
Qed.

Lemma replace_here pat y rep : replace (pat ++ y) pat rep = rep ++ y.
Proof.
  destruct pat as [|c pat]; simpl.
  - by destruct y.
  - rewrite bool_decide_eq_true_2 by done. simpl.
    assert (startsWith (pat ++ y) pat = true) as -> by (apply startsWith_spec; eauto).
    f_equal. apply (str_drop_app pat).
Qed.

Lemma replace_skip x y pat rep :
  (forall x1 x2, x = x1 ++ x2 -> x2 <> "" -> startsWith (x2 ++ y) pat = false) ->
  replace (x ++ y) pat rep = x ++ replace y pat rep.
Proof.
  induction x as [|c x IH]; intros Hno; [done |].
  pose proof (Hno "" (String c x) eq_refl ltac:(done)) as H0.
  rewrite !str_app_cons in *. cbn [replace]. rewrite H0. f_equal.
  apply IH. intros x1 x2 -> Hx2. apply (Hno (String c x1) x2); done.
Qed.

(** A pattern none of whose proper suffixes is one of its prefixes: its
    occurrences cannot overlap, so the first one is found where expected. *)
Definition unbordered (pat : string) : bool :=
  forallb (fun k => negb (startsWith pat (str_drop k pat)))
          (seq 1 (String.length pat - 1)).

Lemma str_drop_of_app x m : str_drop (String.length x) (x ++ m) = m.
Proof. apply str_drop_app. Qed.

Lemma unbordered_spec pat x2 m :
  unbordered pat = true -> pat = x2 ++ m -> x2 <> "" -> m <> "" ->
  startsWith pat m = false.
Proof.
  intros Hu -> Hx2 Hm. unfold unbordered in Hu. rewrite forallb_forall in Hu.
  specialize (Hu (String.length x2)). rewrite str_drop_of_app in Hu.
  destruct (startsWith (x2 ++ m) m); [| done].
  exfalso. enough (negb true = true) by done. apply Hu.
  apply in_seq. rewrite str_length_app.
  destruct x2; [done |]. destruct m; [done |]. simpl. lia.
Qed.

Lemma replace_first x pat y rep :
  unbordered pat = true -> includes x pat = false ->
  replace (x ++ pat ++ y) pat rep = x ++ rep ++ y.
Proof.
  intros Hu Hx. rewrite replace_skip; [by rewrite replace_here |].
  intros x1 x2 -> Hx2. destruct (startsWith _ pat) eqn:E; [exfalso | done].
  apply startsWith_spec in E as [z Hz].
  assert (includes (x1 ++ x2) pat = true -> False) as Hno by congruence.
  apply str_app_eq_app in Hz as [(m & Hpat & Hm) | (m & -> & _)].
  - destruct (decide (m = "")) as [-> | Hm0].
    + rewrite str_app_nil_r in Hpat. subst x2. apply Hno, includes_spec.
      exists x1, "". by rewrite str_app_nil_r.
    + symmetry in Hm. apply str_app_eq_app in Hm as [(m' & Hp & _) | (m' & Hm' & _)].
      * assert (startsWith pat m = true) as Hs by (apply startsWith_spec; eauto).
        by rewrite (unbordered_spec pat x2 m Hu Hpat Hx2 Hm0) in Hs.
      * subst m. apply (f_equal String.length) in Hpat. rewrite !str_length_app in Hpat.
        destruct x2; [done |]. simpl in Hpat. lia.
  - apply Hno, includes_spec. exists x1, m. by rewrite str_app_assoc.
Qed.

(** ** [split] on a one-character separator *)

Fixpoint split (sep : Ascii.ascii) (s : string) : list string :=
  match s with
  | EmptyString => [EmptyString]
  | String c s' =>
      if bool_decide (c = sep) then EmptyString :: split sep s'
      else match split sep s' with
           | p :: ps => String c p :: ps
           | [] => [String c EmptyString]
           end
  end.

(** [Array.prototype.join] with a one-character separator. *)
Definition join (sep : Ascii.ascii) (parts : list string) : string :=
  String.concat (String sep EmptyString) parts.

Lemma split_not_nil sep s : split sep s <> [].
Proof.
  induction s as [|c s IH]; simpl; [done |].
  case_bool_decide; [done |]. by destruct (split sep s).
Qed.

Lemma join_cons sep p ps :
  ps <> [] -> join sep (p :: ps) = p ++ String sep (join sep ps).
Proof. intros H. unfold join. simpl. by destruct ps. Qed.

Lemma join_split sep s : join sep (split sep s) = s.
Proof.
  induction s as [|c s IH]; simpl; [done |].
  pose proof (split_not_nil sep s) as Hne.
  case_bool_decide as Hc.
  - subst c. rewrite join_cons by done. by rewrite IH.
  - destruct (split sep s) as [|p ps] eqn:E; [done |].
    destruct ps as [|p' ps].
    + unfold join in *. simpl in *. by rewrite IH.
    + rewrite join_cons in * by done. rewrite str_app_cons. by rewrite IH.
Qed.

Lemma includes_cons c s sub :
  includes (String c s) sub = startsWith (String c s) sub || includes s sub.
Proof. reflexivity. Qed.

Lemma no_sep_cons sep c p :
  includes (String c p) (String sep EmptyString) = false ->
  c <> sep /\ includes p (String sep EmptyString) = false.
Proof.
  rewrite includes_cons. intros H. apply orb_false_iff in H as [H1 H2]. split; [| done].
  intros ->. simpl in H1. rewrite bool_decide_eq_true_2 in H1 by done. by destruct p.
Qed.

Lemma split_no_sep sep p t :
  includes p (String sep EmptyString) = false ->
  split sep (p ++ t) = match split sep t with
                       | q :: qs => (p ++ q) :: qs
                       | [] => [p]
                       end.
Proof.
  induction p as [|c p IH]; intros Hp.
  - rewrite str_app_nil_l. destruct (split sep t) eqn:E; [by apply split_not_nil in E |].
    by rewrite str_app_nil_l.
  - apply no_sep_cons in Hp as [Hc Hp]. rewrite str_app_cons. simpl.
    rewrite bool_decide_eq_false_2 by done. rewrite IH by done.
    by destruct (split sep t).
Qed.

Lemma split_join sep parts :
  parts <> [] -> Forall (fun p => includes p (String sep EmptyString) = false) parts ->
  split sep (join sep parts) = parts.
Proof.
  induction parts as [|p ps IH]; intros Hne Hf; [done |].
  apply Forall_cons in Hf as [Hp Hps].
  destruct ps as [|p' ps].
  - unfold join. simpl. rewrite <- (str_app_nil_r p), split_no_sep by done.
    simpl. by rewrite str_app_nil_r.
  - rewrite join_cons by done. rewrite split_no_sep by done.
    simpl. rewrite bool_decide_eq_true_2 by done.
    rewrite IH by done. by rewrite str_app_nil_r.
Qed.

(** ** [toLowerCase] on ASCII letters *)

Definition ascii_lower (c : Ascii.ascii) : Ascii.ascii :=
  let n := Ascii.nat_of_ascii c in
  if (65 <=? n)%nat && (n <=? 90)%nat then Ascii.ascii_of_nat (n + 32)%nat else c.

Fixpoint toLowerCase (s : string) : string :=
  match s with
  | EmptyString => EmptyString
  | String c s' => String (ascii_lower c) (toLowerCase s')
  end.

Lemma ascii_lower_idem c : ascii_lower (ascii_lower c) = ascii_lower c.
Proof. destruct c as [[] [] [] [] [] [] [] []]; reflexivity. Qed.

Lemma toLowerCase_idem s : toLowerCase (toLowerCase s) = toLowerCase s.
Proof. induction s; simpl; f_equal; auto using ascii_lower_idem. Qed.

Lemma toLowerCase_app s t : toLowerCase (s ++ t) = toLowerCase s ++ toLowerCase t.
Proof. induction s; [done |]. rewrite str_app_cons. simpl. by rewrite IHs. Qed.

#[export] Hint Rewrite toLowerCase_app toLowerCase_idem : glom_rw.

Lemma includes_trans a b c : includes a b = true -> includes b c = true -> includes a c = true.
Proof.
  rewrite !includes_spec. intros (x & y & ->) (x' & y' & ->).
  exists (x ++ x'), (y' ++ y). rewrite <- !str_app_assoc. done.
Qed.

Lemma includes_empty s : includes s "" = true.
Proof. destruct s; reflexivity. Qed.

Lemma toLowerCase_includes a b : includes a b = true -> includes (toLowerCase a) (toLowerCase b) = true.
Proof.
  rewrite !includes_spec. intros (x & y & ->).
  exists (toLowerCase x), (toLowerCase y). by rewrite !toLowerCase_app.
Qed.
