(* ===== verification/Uri.v ===== *)
(** * URI components: [decodeURIComponent]

    The Next.js server decodes every segment of a request path with
    [decodeURIComponent] before it looks for a file or a route.  It is
    modelled after ECMA-262's Decode, on strings of bytes: a code point
    is kept as its UTF-8 bytes, the form in which Node hands a name to the
    file system.

    [decodeURIComponent] reads a segment as characters and [%XY] escapes
    ([lex]; a [%] without two hexadecimal digits is an error), then
    decodes the escapes ([decode]): a byte below 0x80 is a character; a
    lead byte with n leading ones takes n - 1 further escapes, and the n
    bytes must be a valid UTF-8 encoding of a code point ([utf8_char]:
    no overlong form, no surrogate, nothing above U+10FFFF); anything else
    is a [URIError], [None] here.  The lemmas are those the routing
    proofs use: a segment without [%] is its own decoding, and an escape
    of an ASCII byte decodes to that character. *)

From S2P Require Import Prelude JsString.

Local Open Scope string_scope.

Module Uri.

(** The value of a hexadecimal digit. *)
Definition hex_digit (c : Ascii.ascii) : option nat :=
  let n := Ascii.nat_of_ascii c in
  if (48 <=? n)%nat && (n <=? 57)%nat then Some (n - 48)%nat
  else if (65 <=? n)%nat && (n <=? 70)%nat then Some (n - 55)%nat
  else if (97 <=? n)%nat && (n <=? 102)%nat then Some (n - 87)%nat
  else None.

(** A segment read as characters and escapes. *)
Inductive Token :=
| Raw (c : Ascii.ascii)   (** a character other than [%] *)
| Esc (b : nat).          (** the byte of a [%XY] escape *)

Fixpoint lex (s : string) : option (list Token) :=
  match s with
  | EmptyString => Some []
  | String c rest =>
      if bool_decide (c = "%"%char) then
        match rest with
        | String h1 (String h2 rest') =>
            match hex_digit h1, hex_digit h2 with
            | Some a, Some b => cons (Esc (16 * a + b)%nat) <$> lex rest'
            | _, _ => None
            end
        | _ => None
        end
      else cons (Raw c) <$> lex rest
  end.

(** The number of leading one bits of a byte, 5 standing for more than
    four. *)
Definition lead_ones (b : nat) : nat :=
  if (b <? 128)%nat then 0 else if (b <? 192)%nat then 1
  else if (b <? 224)%nat then 2 else if (b <? 240)%nat then 3
  else if (b <? 248)%nat then 4 else 5.

Definition within (lo b hi : nat) : bool := (lo <=? b)%nat && (b <=? hi)%nat.

(** A continuation byte, [10xxxxxx]. *)
Definition cont (b : nat) : bool := within 128 b 191.

(** The well-formed UTF-8 byte sequences of one code point (Unicode,
    Table 3-7). *)
Definition utf8_char (bs : list nat) : bool :=
  match bs with
  | [b1] => (b1 <? 128)%nat
  | [b1; b2] => within 194 b1 223 && cont b2
  | [b1; b2; b3] =>
      within 224 b1 239 &&
      (if (b1 =? 224)%nat then within 160 b2 191
       else if (b1 =? 237)%nat then within 128 b2 159 else cont b2) &&
      cont b3
  | [b1; b2; b3; b4] =>
      within 240 b1 244 &&
      (if (b1 =? 240)%nat then within 144 b2 191
       else if (b1 =? 244)%nat then within 128 b2 143 else cont b2) &&
      cont b3 && cont b4
  | _ => false
  end.

Definition of_bytes (bs : list nat) : string :=
  String.string_of_list_ascii (map Ascii.ascii_of_nat bs).

(** Decoding the escapes, one code point at a time. *)
Fixpoint decode (ts : list Token) : option string :=
  match ts with
  | [] => Some ""
  | Raw c :: rest => String c <$> decode rest
  | Esc b1 :: rest =>
      match lead_ones b1, rest with
      | 0, _ => String (Ascii.ascii_of_nat b1) <$> decode rest
      | 2, Esc b2 :: rest' =>
          if utf8_char [b1; b2] then (fun d => of_bytes [b1; b2] ++ d) <$> decode rest' else None
      | 3, Esc b2 :: Esc b3 :: rest' =>
          if utf8_char [b1; b2; b3] then (fun d => of_bytes [b1; b2; b3] ++ d) <$> decode rest'
          else None
      | 4, Esc b2 :: Esc b3 :: Esc b4 :: rest' =>
          if utf8_char [b1; b2; b3; b4] then (fun d => of_bytes [b1; b2; b3; b4] ++ d) <$> decode rest'
          else None
      | _, _ => None
      end
  end.

Definition decodeURIComponent (s : string) : option string :=
  lex s ≫= decode.

End Uri.

(** ** Lemmas *)

Section UriLemmas.
Import Uri.

Lemma lex_raw c s : c <> "%"%char -> lex (String c s) = cons (Raw c) <$> lex s.
Proof. intros Hc. simpl. by rewrite bool_decide_eq_false_2. Qed.

Lemma lex_escape h1 h2 s a b :
  hex_digit h1 = Some a -> hex_digit h2 = Some b ->
  lex (String "%" (String h1 (String h2 s))) = cons (Esc (16 * a + b)) <$> lex s.
Proof. intros H1 H2. simpl. by rewrite H1, H2. Qed.

Lemma lex_no_percent s : "%"%char ∉ lstr s -> lex s = Some (Raw <$> lstr s).
Proof.
  induction s as [|c s IH]; [done |]. cbn [String.list_ascii_of_string]. rewrite not_elem_of_cons.
  intros [Hc Hs]. rewrite lex_raw by done. by rewrite IH.
Qed.

Lemma decode_raw l : decode (Raw <$> l) = Some (String.string_of_list_ascii l).
Proof. induction l as [|c l IH]; [done |]. rewrite fmap_cons. cbn [decode]. by rewrite IH. Qed.

(** A segment without [%] is its own decoding. *)
Lemma decode_no_percent s : "%"%char ∉ lstr s -> decodeURIComponent s = Some s.
Proof.
  intros Hs. unfold decodeURIComponent. rewrite lex_no_percent by done.
  change (decode (Raw <$> lstr s) = Some s).
  by rewrite decode_raw, String.string_of_list_ascii_of_string.
Qed.

End UriLemmas.
