(* ===== verification/FileSystem.v ===== *)
(** * The file system seen by the route handlers

    The route handlers call Node's [fs.readdirSync], [fs.existsSync],
    [fs.readFileSync] (and [fs/promises.readFile], with the same result)
    and build their paths with [path.join(process.cwd(), ...)].  This file
    states what the handlers rely on as a class [FileSystem] with its laws,
    models [path.join] (split on [/], drop empty and [.] segments, [..]
    pops a segment and stops at the root), and gives an in-memory instance
    [MemFS] on stdpp maps on which concrete requests compute. *)

From S2P Require Import Prelude JsString.

Local Open Scope string_scope.

(** A path is the list of its segments from the root. *)
Abbreviation path := (list string).

Abbreviation bytes := (list Byte.byte).

(** A directory entry name: no [/], and not [""], [.] or [..]. *)
Definition plain_segment (s : string) : bool :=
  negb (includes s "/") && negb (bool_decide (s ∈ ["" ; "." ; ".."])).

(** ** The interface *)

Class FileSystem (F : Type) := {
  readdirSync : F -> path -> option (list string);
  existsSync : F -> path -> bool;
  readFileSync : F -> path -> option bytes;
  (** a file that can be read exists *)
  readFileSync_exists fs p b : readFileSync fs p = Some b -> existsSync fs p = true;
  (** directory entries are single plain segments *)
  readdirSync_plain fs d ns : readdirSync fs d = Some ns -> Forall (fun n => plain_segment n = true) ns;
  (** a directory does not list a name twice *)
  readdirSync_nodup fs d ns : readdirSync fs d = Some ns -> NoDup ns
}.

(** ** [path.join] *)

Definition push_segment (acc : path) (seg : string) : path :=
  if bool_decide (seg = "") || bool_decide (seg = ".") then acc
  else if bool_decide (seg = "..") then removelast acc
  else (acc ++ [seg])%list.

(** [path.join(base, p1, ..., pn)] for an absolute, normalised [base]. *)
Definition path_join (base : path) (parts : list string) : path :=
  foldl push_segment base (mjoin (split "/"%char <$> parts)).

Lemma split_plain s : plain_segment s = true -> split "/"%char s = [s].
Proof.
  intros Hs. apply andb_true_iff in Hs as [Hs _]. apply negb_true_iff in Hs.
  rewrite <- (str_app_nil_r s), split_no_sep by done. simpl. by rewrite str_app_nil_r.
Qed.

Lemma push_plain acc s : plain_segment s = true -> push_segment acc s = (acc ++ [s])%list.
Proof.
  intros Hs. unfold push_segment. apply andb_true_iff in Hs as [_ Hs].
  apply negb_true_iff, bool_decide_eq_false in Hs.
  rewrite !bool_decide_eq_false_2 by set_solver. done.
Qed.

Lemma path_join_app base parts1 parts2 :
  path_join base (parts1 ++ parts2)%list = path_join (path_join base parts1) parts2.
Proof. unfold path_join. by rewrite fmap_app, join_app, foldl_app. Qed.

(** Joining plain segments appends them. *)
Lemma path_join_plain base parts :
  Forall (fun s => plain_segment s = true) parts -> path_join base parts = (base ++ parts)%list.
Proof.
  revert base. induction parts as [|s parts IH]; intros base Hf.
  - by rewrite app_nil_r.
  - apply Forall_cons in Hf as [Hs Hf].
    rewrite (path_join_app base [s] parts : path_join base (s :: parts) = _). unfold path_join at 2. simpl.
    rewrite split_plain by done. simpl. rewrite push_plain by done.
    rewrite IH by done. by rewrite <- app_assoc.
Qed.

#[export] Hint Resolve path_join_plain : glom.

(** ** An in-memory file system *)

Definition entries_wf (dirs : gmap path (list string)) : bool :=
  forallb (fun '(_, ns) => forallb plain_segment ns && bool_decide (NoDup ns)) (map_to_list dirs).

Lemma entries_wf_lookup dirs d ns :
  entries_wf dirs = true -> dirs !! d = Some ns ->
  forallb plain_segment ns = true /\ NoDup ns.
Proof.
  unfold entries_wf. rewrite forallb_forall. intros Hwf Hd.
  specialize (Hwf (d, ns)). rewrite <- list_elem_of_In, elem_of_map_to_list in Hwf.
  apply andb_true_iff in Hwf as [Hp Hn]; [| done]. split; [done |]. by apply bool_decide_eq_true in Hn.
Qed.

Record MemFS := {
  mfs_files : gmap path bytes;
  mfs_dirs : gmap path (list string);
  mfs_wf : entries_wf mfs_dirs = true
}.

Definition mem_exists (m : MemFS) (p : path) : bool :=
  bool_decide (is_Some (mfs_files m !! p)) || bool_decide (is_Some (mfs_dirs m !! p)).

#[export] Program Instance MemFS_FileSystem : FileSystem MemFS := {
  readdirSync m d := mfs_dirs m !! d;
  existsSync := mem_exists;
  readFileSync m p := mfs_files m !! p
}.
Next Obligation.
  intros m p b H. unfold mem_exists. rewrite H. done.
Qed.
Next Obligation.
  intros m d ns H. apply (entries_wf_lookup _ _ _ (mfs_wf m)) in H as [Hp _].
  apply Forall_forall. intros n Hn. rewrite forallb_forall in Hp. apply Hp. by apply list_elem_of_In.
Qed.
Next Obligation.
  intros m d ns H. by apply (entries_wf_lookup _ _ _ (mfs_wf m)) in H as [_ Hn].
Qed.

(** A leading [..] pops the last segment of the base. *)
Lemma path_join_dotdot base rest :
  path_join base (".." :: rest) = path_join (removelast base) rest.
Proof. rewrite (path_join_app base [".."] rest : path_join base (".." :: rest) = _). reflexivity. Qed.

Lemma plain_segments_literal (l : list string) :
  forallb plain_segment l = true -> Forall (fun s => plain_segment s = true) l.
Proof.
  intros H. apply Forall_forall. intros x Hx. rewrite forallb_forall in H.
  apply H. by apply list_elem_of_In.
Qed.

(** Joining plain segments, the last one given apart. *)
Lemma path_join_plain_last base lits s :
  forallb plain_segment lits = true -> plain_segment s = true ->
  path_join base (lits ++ [s])%list = (base ++ lits ++ [s])%list.
Proof.
  intros Hl Hs. apply path_join_plain. apply Forall_app. split; [by apply plain_segments_literal |].
  by constructor.
Qed.
