(* ===== verification/Api.v ===== *)
(** * The route handlers of [src/app/api]

    [Module ImagesRoute]: [GET] of [src/app/api/images/route.ts]
    (directory listing filtered on [.jpg]).  [Module ImageFileRoute]:
    [GET] of [src/app/api/images/[filename]/route.ts] (existence check,
    then read, from [<cwd>/../dataset_web_jpeg]).  [Module MaskRoute]:
    [GET] of [src/app/api/masks/[filename]/route.ts] (mask name by
    [replace('.jpg', '_mask.png')], read from [<cwd>/public/masks]).
    Every handler is stated against the [FileSystem] class; how requests
    reach the handlers is in [Routing]. *)

From S2P Require Import Prelude JsString FileSystem.

Local Open Scope string_scope.

(** ** Responses *)

Inductive Body :=
| JsonImages (images : list string)   (** [NextResponse.json({ images })] *)
| JsonError (error : string)          (** [NextResponse.json({ error }, ...)] *)
| Bytes (contentType cacheControl : string) (data : bytes)
                                      (** [new NextResponse(buffer, { headers })] *)
| StaticFile (data : bytes)           (** a file of [public/] served by Next *)
| NotFoundPage                        (** Next's default 404 page *)
| BadRequestPage.                     (** Next's 400 answer to a malformed URL *)

Record Response := mkResponse { status : Z; body : Body }.

Definition cache_immutable : string := "public, max-age=31536000".

(** ** [GET /api/images] *)

Module ImagesRoute.
Section WithFS.
Context `{FileSystem F}.

Definition datasetPath (cwd : path) : path := path_join cwd ["public"; "jpegs"].

Definition GET (fs : F) (cwd : path) : Response :=
  match readdirSync fs (datasetPath cwd) with
  | Some files =>
      mkResponse 200 (JsonImages (filter (fun file => endsWith file ".jpg" = true) files))
  | None => mkResponse 500 (JsonError "Failed to read images")
  end.

End WithFS.
End ImagesRoute.

(** ** [GET /api/images/[filename]] *)

Module ImageFileRoute.
Section WithFS.
Context `{FileSystem F}.

Definition datasetPath (cwd : path) (filename : string) : path :=
  path_join cwd [".."; "dataset_web_jpeg"; filename].

Definition GET (fs : F) (cwd : path) (filename : string) : Response :=
  let p := datasetPath cwd filename in
  if negb (existsSync fs p) then mkResponse 404 (JsonError "Image not found")
  else match readFileSync fs p with
       | Some imageBuffer => mkResponse 200 (Bytes "image/jpeg" cache_immutable imageBuffer)
       | None => mkResponse 500 (JsonError "Failed to serve image")
       end.

End WithFS.
End ImageFileRoute.

(** ** [GET /api/masks/[filename]] *)

Module MaskRoute.
Section WithFS.
Context `{FileSystem F}.

Definition maskFilename (filename : string) : string :=
  replace filename ".jpg" "_mask.png".

Definition maskPath (cwd : path) (filename : string) : path :=
  path_join cwd ["public"; "masks"; maskFilename filename].

(** [readFile] rejects for any reason (absent file, directory, I/O
    error); the handler answers 404 in every case. *)
Definition GET (fs : F) (cwd : path) (filename : string) : Response :=
  match readFileSync fs (maskPath cwd filename) with
  | Some fileBuffer => mkResponse 200 (Bytes "image/png" cache_immutable fileBuffer)
  | None => mkResponse 404 (JsonError "Mask not found")
  end.

End WithFS.
End MaskRoute.

(** ** Shared lemmas *)

Section ApiLemmas.
Context `{FileSystem F}.

Lemma plain_segment_nonempty s : plain_segment s = true -> s <> "".
Proof. unfold plain_segment. intros Hs ->. done. Qed.

Lemma plain_segment_no_slash s : plain_segment s = true -> includes s "/" = false.
Proof. unfold plain_segment. intros Hs. apply andb_true_iff in Hs as [Hs _]. by apply negb_true_iff. Qed.

Lemma ImagesRoute_GET_ok_inv fs cwd names :
  ImagesRoute.GET fs cwd = mkResponse 200 (JsonImages names) ->
  exists files, readdirSync fs (ImagesRoute.datasetPath cwd) = Some files /\
    names = filter (fun file => endsWith file ".jpg" = true) files.
Proof.
  unfold ImagesRoute.GET. destruct (readdirSync fs _) as [files|]; [| done].
  intros Hr. injection Hr as <-. eauto.
Qed.

Lemma ImagesRoute_names_plain fs cwd names :
  ImagesRoute.GET fs cwd = mkResponse 200 (JsonImages names) ->
  Forall (fun n => plain_segment n = true) names.
Proof.
  intros (files & Hdir & ->)%ImagesRoute_GET_ok_inv.
  pose proof (readdirSync_plain _ _ _ Hdir) as Hp. rewrite Forall_forall in Hp |- *.
  intros n Hn. apply list_elem_of_filter in Hn as [_ Hn]. by apply Hp.
Qed.

(** A successful listing names distinct plain [.jpg] entries. *)
Lemma ImagesRoute_GET_ok_names fs cwd names :
  ImagesRoute.GET fs cwd = mkResponse 200 (JsonImages names) ->
  NoDup names /\ Forall (fun n => plain_segment n = true /\ endsWith n ".jpg" = true) names.
Proof.
  intros Hget. pose proof (ImagesRoute_names_plain _ _ _ Hget) as Hp.
  apply ImagesRoute_GET_ok_inv in Hget as (files & Hdir & ->). split.
  - apply NoDup_filter. by eapply readdirSync_nodup.
  - rewrite Forall_forall in Hp |- *. intros n Hn. split; [by apply Hp |].
    by apply list_elem_of_filter in Hn as [? _].
Qed.

End ApiLemmas.

#[export] Hint Resolve plain_segment_nonempty plain_segment_no_slash : glom.

(** ** Properties of the route handlers *)

Section ApiProps.
Context `{FileSystem F}.

(** C5. A successful listing answers 200 with exactly the directory
    entries of [<cwd>/public/jpegs] whose name ends in [.jpg], in the
    enumeration order, each a plain path segment. *)
Theorem ImagesRoute_GET_lists_jpgs (fs : F) (cwd : path) files :
  readdirSync fs (cwd ++ ["public"; "jpegs"])%list = Some files ->
  exists names,
    ImagesRoute.GET fs cwd = mkResponse 200 (JsonImages names) /\
    names `sublist_of` files /\
    (forall n, n ∈ names <-> n ∈ files /\ exists x, n = x ++ ".jpg") /\
    Forall (fun n => plain_segment n = true) names.
Proof.
  intros Hdir. unfold ImagesRoute.GET, ImagesRoute.datasetPath.
  rewrite path_join_plain by (apply plain_segments_literal; reflexivity).
  rewrite Hdir. eexists. split; [reflexivity |]. split; [apply sublist_filter |]. split.
  - intros n. rewrite list_elem_of_filter, endsWith_spec. tauto.
  - eapply ImagesRoute_names_plain. unfold ImagesRoute.GET, ImagesRoute.datasetPath.
    rewrite path_join_plain by (apply plain_segments_literal; reflexivity). by rewrite Hdir.
Qed.

(** C36. When [<cwd>/public/jpegs] cannot be listed the route answers 500
    with the error body. *)
Theorem ImagesRoute_GET_unreadable (fs : F) (cwd : path) :
  readdirSync fs (cwd ++ ["public"; "jpegs"])%list = None ->
  ImagesRoute.GET fs cwd = mkResponse 500 (JsonError "Failed to read images").
Proof.
  intros Hdir. unfold ImagesRoute.GET, ImagesRoute.datasetPath.
  rewrite path_join_plain by (apply plain_segments_literal; reflexivity).
  by rewrite Hdir.
Qed.

Lemma ImageFileRoute_datasetPath_plain cwd f :
  plain_segment f = true ->
  ImageFileRoute.datasetPath cwd f = (removelast cwd ++ ["dataset_web_jpeg"; f])%list.
Proof.
  intros Hf. unfold ImageFileRoute.datasetPath. rewrite path_join_dotdot.
  apply (path_join_plain_last _ ["dataset_web_jpeg"]); [reflexivity | done].
Qed.

(** C7. For a plain file name the image route looks in
    [<cwd>/../dataset_web_jpeg] (not in [public/jpegs], which the listing
    enumerates): 404 when the path does not exist, 200 with the bytes and
    the immutable cache directive when it reads, 500 when it exists and
    cannot be read (a directory, an I/O error). *)
Theorem ImageFileRoute_GET_cases (fs : F) (cwd : path) (f : string) :
  plain_segment f = true ->
  let p := (removelast cwd ++ ["dataset_web_jpeg"; f])%list in
  (existsSync fs p = false -> ImageFileRoute.GET fs cwd f = mkResponse 404 (JsonError "Image not found")) /\
  (forall b, readFileSync fs p = Some b ->
     ImageFileRoute.GET fs cwd f = mkResponse 200 (Bytes "image/jpeg" cache_immutable b)) /\
  (existsSync fs p = true -> readFileSync fs p = None ->
     ImageFileRoute.GET fs cwd f = mkResponse 500 (JsonError "Failed to serve image")).
Proof.
  intros Hf p. unfold ImageFileRoute.GET. rewrite ImageFileRoute_datasetPath_plain by done.
  fold p. split; [| split].
  - intros He. by rewrite He.
  - intros b Hb. by rewrite (readFileSync_exists _ _ _ Hb), Hb.
  - intros He Hr. by rewrite He, Hr.
Qed.

(** C8. The mask name of [X.jpg...] replaces the first [.jpg] only:
    for a stem [X] without [.jpg], [X ++ ".jpg" ++ Y] becomes
    [X ++ "_mask.png" ++ Y] (so [X.jpg] asks for [X_mask.png]). *)
Theorem maskFilename_first_occurrence (X Y : string) :
  includes X ".jpg" = false ->
  MaskRoute.maskFilename (X ++ ".jpg" ++ Y) = X ++ "_mask.png" ++ Y.
Proof. intros HX. unfold MaskRoute.maskFilename. by apply replace_first. Qed.

(** A file name without [.jpg] is used unchanged as the mask name. *)
Theorem maskFilename_no_jpg (f : string) :
  includes f ".jpg" = false -> MaskRoute.maskFilename f = f.
Proof. intros Hf. unfold MaskRoute.maskFilename. by apply replace_absent. Qed.

(** C34. The mask route reads [<cwd>/public/masks/<mask name>]: 200 with
    the PNG bytes when the read succeeds, 404 with the error body for
    every failure of the read. *)
Theorem MaskRoute_GET_cases (fs : F) (cwd : path) (f : string) :
  plain_segment (MaskRoute.maskFilename f) = true ->
  let p := (cwd ++ ["public"; "masks"; MaskRoute.maskFilename f])%list in
  (forall b, readFileSync fs p = Some b ->
     MaskRoute.GET fs cwd f = mkResponse 200 (Bytes "image/png" cache_immutable b)) /\
  (readFileSync fs p = None -> MaskRoute.GET fs cwd f = mkResponse 404 (JsonError "Mask not found")).
Proof.
  intros Hm p. subst p. unfold MaskRoute.GET, MaskRoute.maskPath.
  rewrite (path_join_plain_last _ ["public"; "masks"] _ eq_refl Hm
    : path_join cwd ["public"; "masks"; _] = _). simpl.
  split; [intros b Hb | intros Hb]; by rewrite Hb.
Qed.

End ApiProps.

(** ** A concrete deployment, and the witnesses *)

Definition demo_cwd : path := ["srv"; "app"].

Definition demo_files : gmap path bytes :=
  <[ ["srv"; "app"; "public"; "jpegs"; "HE_1.jpg"] := [Byte.x01] ]>
  (<[ ["srv"; "app"; "public"; "masks"; "HE_1_mask.png"] := [Byte.x02] ]>
  (<[ ["srv"; "secret.jpg"] := [Byte.x03] ]> ∅)).

Definition demo_dirs : gmap path (list string) :=
  <[ ["srv"; "app"; "public"; "jpegs"] := ["HE_1.jpg"; "notes.txt"; "PAS_2.jpg"] ]>
  (<[ ["srv"; "app"; "public"; "masks"] := ["HE_1_mask.png"] ]> ∅).

Definition demo_fs : MemFS := {| mfs_files := demo_files; mfs_dirs := demo_dirs; mfs_wf := eq_refl |}.

Lemma ImagesRoute_GET_lists_jpgs_witness :
  readdirSync demo_fs (demo_cwd ++ ["public"; "jpegs"])%list = Some ["HE_1.jpg"; "notes.txt"; "PAS_2.jpg"] /\
  exists names,
    ImagesRoute.GET demo_fs demo_cwd = mkResponse 200 (JsonImages names) /\
    names `sublist_of` ["HE_1.jpg"; "notes.txt"; "PAS_2.jpg"] /\
    (forall n, n ∈ names <-> n ∈ ["HE_1.jpg"; "notes.txt"; "PAS_2.jpg"] /\ exists x, n = x ++ ".jpg") /\
    Forall (fun n => plain_segment n = true) names.
Proof. split; [reflexivity |]. apply ImagesRoute_GET_lists_jpgs. reflexivity. Defined.

Lemma ImagesRoute_GET_unreadable_witness :
  readdirSync demo_fs (["srv"] ++ ["public"; "jpegs"])%list = None /\
  ImagesRoute.GET demo_fs ["srv"] = mkResponse 500 (JsonError "Failed to read images").
Proof. split; [reflexivity |]. apply ImagesRoute_GET_unreadable. reflexivity. Defined.

Lemma ImageFileRoute_GET_cases_witness :
  plain_segment "HE_1.jpg" = true /\
  let p := (removelast demo_cwd ++ ["dataset_web_jpeg"; "HE_1.jpg"])%list in
  (existsSync demo_fs p = false ->
     ImageFileRoute.GET demo_fs demo_cwd "HE_1.jpg" = mkResponse 404 (JsonError "Image not found")) /\
  (forall b, readFileSync demo_fs p = Some b ->
     ImageFileRoute.GET demo_fs demo_cwd "HE_1.jpg" = mkResponse 200 (Bytes "image/jpeg" cache_immutable b)) /\
  (existsSync demo_fs p = true -> readFileSync demo_fs p = None ->
     ImageFileRoute.GET demo_fs demo_cwd "HE_1.jpg" = mkResponse 500 (JsonError "Failed to serve image")).
Proof. split; [reflexivity |]. apply ImageFileRoute_GET_cases. reflexivity. Defined.

Lemma maskFilename_first_occurrence_witness :
  includes "HE_1" ".jpg" = false /\
  MaskRoute.maskFilename ("HE_1" ++ ".jpg" ++ ".jpg") = "HE_1" ++ "_mask.png" ++ ".jpg".
Proof. split; [reflexivity |]. apply maskFilename_first_occurrence. reflexivity. Defined.

Lemma maskFilename_no_jpg_witness :
  includes "HE_1.png" ".jpg" = false /\ MaskRoute.maskFilename "HE_1.png" = "HE_1.png".
Proof. split; [reflexivity |]. apply maskFilename_no_jpg. reflexivity. Defined.

Lemma MaskRoute_GET_cases_witness :
  plain_segment (MaskRoute.maskFilename "HE_1.jpg") = true /\
  let p := (demo_cwd ++ ["public"; "masks"; MaskRoute.maskFilename "HE_1.jpg"])%list in
  (forall b, readFileSync demo_fs p = Some b ->
     MaskRoute.GET demo_fs demo_cwd "HE_1.jpg" = mkResponse 200 (Bytes "image/png" cache_immutable b)) /\
  (readFileSync demo_fs p = None ->
     MaskRoute.GET demo_fs demo_cwd "HE_1.jpg" = mkResponse 404 (JsonError "Mask not found")).
Proof. split; [reflexivity |]. apply MaskRoute_GET_cases. reflexivity. Defined.

