(* ===== verification/Routing.v ===== *)
(** * Request routing: [src/next.config.js] and the Next.js server

    [Module Server] is the way a request for a URL reaches a handler of
    [Api].  The browser drops a fragment ([#...]) and the server the query
    string ([?...]) ([url_path]); the path is split into segments, each of
    which is decoded by [Uri.decodeURIComponent] (a malformed escape or
    escaped bytes that are not UTF-8 are a 400 answer); then
    [handle] tries a file of [public/], the app routes, and the rewrite
    table of next.config.js ([rewrites]), in that order.  The rewrite table
    is translated from the source; the rest is the spec's account of the
    Next.js server.  The theorems show that the rewrites make [/images/*]
    and [/masks/*] equivalent to [/api/images/*] and [/api/masks/*], which
    URLs reach which handler, that the listing and the image route read
    different directories, and that a decoded [%2F] carries a path
    traversal from a request to the image route. *)

From S2P Require Import Prelude JsString Uri FileSystem Api.

Local Open Scope string_scope.

Module Server.

(** The path of a request for [url]: up to the first [?] or [#]. *)
Fixpoint url_path (url : string) : string :=
  match url with
  | EmptyString => EmptyString
  | String c rest =>
      if bool_decide (c = "?"%char) || bool_decide (c = "#"%char) then EmptyString
      else String c (url_path rest)
  end.

(** The segments of a request path ([/a/b?q] gives [a; b]), before
    decoding. *)
Definition url_segments (url : string) : list string :=
  filter (fun s => s <> "") (split "/" (url_path url)).

(** [rewrites()] of next.config.js: [/images/:path*] to
    [/api/images/:path*] and [/masks/:path*] to [/api/masks/:path*];
    [:path*] matches zero or more segments. *)
Definition rewrites (segs : list string) : option (list string) :=
  match segs with
  | s :: rest =>
      if bool_decide (s = "images") then Some ("api" :: "images" :: rest)
      else if bool_decide (s = "masks") then Some ("api" :: "masks" :: rest)
      else None
  | [] => None
  end.

Section WithFS.
Context `{FileSystem F}.

(** The app router: [app/api/images/route.ts] and the two dynamic
    [[filename]] routes, which match exactly one (decoded) segment. *)
Definition app_route (fs : F) (cwd : path) (segs : list string) : option Response :=
  match segs with
  | [a; b] =>
      if bool_decide (a = "api" /\ b = "images") then Some (ImagesRoute.GET fs cwd) else None
  | [a; b; f] =>
      if bool_decide (a = "api" /\ b = "images") then Some (ImageFileRoute.GET fs cwd f)
      else if bool_decide (a = "api" /\ b = "masks") then Some (MaskRoute.GET fs cwd f)
      else None
  | _ => None
  end.

(** A regular file under [<cwd>/public]. *)
Definition public_file (fs : F) (cwd : path) (segs : list string) : option bytes :=
  if bool_decide (segs <> []) && forallb plain_segment segs
  then readFileSync fs (cwd ++ "public" :: segs)%list
  else None.

(** Decoded segments: public files first, then the app routes, then the
    rewrites (next.config.js returns a plain array: after-files
    rewrites). *)
Definition handle (fs : F) (cwd : path) (segs : list string) : Response :=
  match public_file fs cwd segs with
  | Some b => mkResponse 200 (StaticFile b)
  | None =>
      match app_route fs cwd segs with
      | Some r => r
      | None =>
          match rewrites segs with
          | Some segs' => default (mkResponse 404 NotFoundPage) (app_route fs cwd segs')
          | None => mkResponse 404 NotFoundPage
          end
      end
  end.

Definition serve (fs : F) (cwd : path) (url : string) : Response :=
  match mapM Uri.decodeURIComponent (url_segments url) with
  | Some segs => handle fs cwd segs
  | None => mkResponse 400 BadRequestPage
  end.

End WithFS.
End Server.

(** A name the page can put in a URL as it is: no [%], [?] or [#]. *)
Definition url_char (c : Ascii.ascii) : bool :=
  negb (bool_decide (c = "%"%char) || bool_decide (c = "?"%char) || bool_decide (c = "#"%char)).

Definition url_safe (s : string) : bool := forallb url_char (lstr s).

(** ** Lemmas on routing *)

Section RoutingLemmas.
Context `{FileSystem F}.

(** A segment with a [/] inside is not a plain segment. *)
Lemma plain_segment_slash x y : plain_segment (x ++ String "/" y) = false.
Proof.
  unfold plain_segment. assert (includes (x ++ String "/" y) "/" = true) as -> by
    (apply includes_spec; exists x, y; done).
  done.
Qed.

Lemma url_safe_cons c s : url_safe (String c s) = url_char c && url_safe s.
Proof. reflexivity. Qed.

Lemma url_safe_app s t : url_safe (s ++ t) = url_safe s && url_safe t.
Proof. unfold url_safe. by rewrite lstr_app, forallb_app. Qed.

Lemma url_char_true c :
  url_char c = true ->
  bool_decide (c = "%"%char) = false /\ bool_decide (c = "?"%char) = false /\
  bool_decide (c = "#"%char) = false.
Proof. unfold url_char. intros Hc. apply negb_true_iff in Hc. repeat rewrite orb_false_iff in Hc. tauto. Qed.

Lemma url_path_safe s : url_safe s = true -> Server.url_path s = s.
Proof.
  induction s as [|c s IH]; [done |]. rewrite url_safe_cons.
  intros [(_ & Hq & Hh)%url_char_true Hs]%andb_true_iff. simpl. rewrite Hq, Hh. simpl. by rewrite IH.
Qed.

Lemma url_safe_no_percent s : url_safe s = true -> "%"%char ∉ lstr s.
Proof.
  induction s as [|c s IH]; [set_solver |]. rewrite url_safe_cons.
  intros [(Hp & _ & _)%url_char_true Hs]%andb_true_iff. cbn [String.list_ascii_of_string].
  rewrite not_elem_of_cons. split; [| by apply IH]. intros Heq. subst c. by rewrite bool_decide_eq_true_2 in Hp.
Qed.

Lemma percent_decode_safe s : url_safe s = true -> Uri.decodeURIComponent s = Some s.
Proof. intros Hs. by apply decode_no_percent, url_safe_no_percent. Qed.

Lemma url_safe_join segs :
  Forall (fun s => url_safe s = true) segs -> url_safe (join "/" segs) = true.
Proof.
  induction 1 as [|s segs Hs Hsegs IH]; [done |].
  destruct segs as [|s' segs']; [exact Hs |].
  rewrite join_cons by done. rewrite url_safe_app, url_safe_cons, Hs, IH. done.
Qed.

Lemma decode_safe segs :
  Forall (fun s => url_safe s = true) segs -> mapM Uri.decodeURIComponent segs = Some segs.
Proof.
  intros Hf. apply mapM_Some_2. induction Hf; constructor; [by apply percent_decode_safe | done].
Qed.

Lemma url_segments_join segs :
  segs <> [] -> Forall (fun s => plain_segment s = true /\ url_safe s = true) segs ->
  Server.url_segments (String "/" (join "/" segs)) = segs.
Proof.
  intros Hne Hf. unfold Server.url_segments.
  rewrite url_path_safe by (rewrite url_safe_cons, url_safe_join; [done |];
    eapply Forall_impl; [exact Hf | intros s [_ Hs]; exact Hs]).
  simpl.
  rewrite split_join; [| done | eapply Forall_impl; [apply Hf | intros s [Hs _]; by apply plain_segment_no_slash]].
  rewrite filter_cons_False by naive_solver. apply filter_all.
  eapply Forall_impl; [apply Hf | intros s [Hs _]; by apply plain_segment_nonempty].
Qed.

Lemma serve_decoded fs cwd url segs :
  mapM Uri.decodeURIComponent (Server.url_segments url) = Some segs ->
  Server.serve fs cwd url = Server.handle fs cwd segs.
Proof. unfold Server.serve. by intros ->. Qed.

(** [..%2F<name>] decodes to [../<name>]. *)
Lemma decode_dotdot name :
  url_safe name = true ->
  Uri.decodeURIComponent (String "." (String "." (String "%" (String "2" (String "F" name))))) =
  Some (String "." (String "." (String "/" name))).
Proof.
  intros Hu. unfold Uri.decodeURIComponent.
  rewrite (lex_raw "."), (lex_raw "."), (lex_escape "2" "F" name 2 15), lex_no_percent;
    [| by apply url_safe_no_percent | done..].
  change (Uri.decode (Uri.Raw "." :: Uri.Raw "." :: Uri.Esc 47 :: (Uri.Raw <$> lstr name)) =
          Some (String "." (String "." (String "/" name)))).
  cbn [Uri.decode]. change (Uri.lead_ones 47) with 0. cbn iota. rewrite decode_raw.
  by rewrite String.string_of_list_ascii_of_string.
Qed.

(** A URL made of plain, URL-safe segments is handled on those segments. *)
Lemma serve_join fs cwd segs :
  segs <> [] -> Forall (fun s => plain_segment s = true /\ url_safe s = true) segs ->
  Server.serve fs cwd (String "/" (join "/" segs)) = Server.handle fs cwd segs.
Proof.
  intros Hne Hf. unfold Server.serve. rewrite url_segments_join by done.
  rewrite decode_safe; [done |]. eapply Forall_impl; [exact Hf | intros s [_ Hs]; exact Hs].
Qed.

Lemma public_file_plain fs cwd segs :
  segs <> [] -> Forall (fun s => plain_segment s = true) segs ->
  Server.public_file fs cwd segs = readFileSync fs (cwd ++ "public" :: segs)%list.
Proof.
  intros Hne Hf. unfold Server.public_file. rewrite bool_decide_eq_true_2 by done.
  assert (forallb plain_segment segs = true) as -> by (apply forallb_forall; intros x Hx;
    rewrite Forall_forall in Hf; apply Hf; by apply list_elem_of_In).
  done.
Qed.

(** The decoded path [jpegs/<name>] of a plain name is the file of
    [public/jpegs]. *)
Lemma handle_public_jpeg fs cwd n b :
  plain_segment n = true -> readFileSync fs (cwd ++ ["public"; "jpegs"; n])%list = Some b ->
  Server.handle fs cwd ["jpegs"; n] = mkResponse 200 (StaticFile b).
Proof.
  intros Hp Hb. unfold Server.handle.
  rewrite public_file_plain by (repeat constructor; done). by rewrite Hb.
Qed.

(** A plain, URL-safe name under [public/jpegs] is served at [/jpegs/<name>]. *)
Lemma serve_public_jpeg fs cwd n b :
  plain_segment n = true -> url_safe n = true ->
  readFileSync fs (cwd ++ ["public"; "jpegs"; n])%list = Some b ->
  Server.serve fs cwd ("/jpegs/" ++ n) = mkResponse 200 (StaticFile b).
Proof.
  intros Hp Hu Hb. change ("/jpegs/" ++ n) with (String "/" (join "/" ["jpegs"; n])).
  rewrite serve_join by (repeat constructor; done). by apply handle_public_jpeg.
Qed.

(** The only JSON listing the server answers to [/api/images] is the
    listing route's successful answer. *)
Lemma serve_api_images fs cwd names :
  body (Server.serve fs cwd "/api/images") = JsonImages names ->
  ImagesRoute.GET fs cwd = mkResponse 200 (JsonImages names).
Proof.
  unfold Server.serve.
  change (mapM Uri.decodeURIComponent (Server.url_segments "/api/images")) with (Some ["api"; "images"]).
  unfold Server.handle. destruct (Server.public_file fs cwd _); [done |]. simpl.
  unfold ImagesRoute.GET. destruct (readdirSync fs _); simpl; [by intros [= <-] | done].
Qed.

(** [/masks/<f>] reaches the mask route unless a public file shadows it. *)
Lemma serve_mask_url fs cwd f :
  plain_segment f = true -> url_safe f = true ->
  Server.public_file fs cwd ["masks"; f] = None ->
  Server.serve fs cwd ("/masks/" ++ f) = MaskRoute.GET fs cwd f.
Proof.
  intros Hf Hu Hpub. change ("/masks/" ++ f) with (String "/" (join "/" ["masks"; f])).
  rewrite serve_join by (repeat constructor; done). unfold Server.handle. by rewrite Hpub.
Qed.

Lemma url_path_prefix s : exists t, s = Server.url_path s ++ t.
Proof.
  induction s as [|c s [t IH]]; [by exists "" |]. simpl.
  destruct (bool_decide _ || bool_decide _); [by exists (String c s) |].
  exists t. rewrite str_app_cons. by f_equal.
Qed.

Lemma url_path_no_slash s :
  includes s "/" = false -> includes (Server.url_path s) "/" = false.
Proof.
  intros Hs. destruct (includes (Server.url_path s) "/") eqn:E; [| done].
  apply includes_spec in E as (x & y & Hxy). destruct (url_path_prefix s) as [t Ht].
  rewrite Hxy, <- !str_app_assoc in Ht. rewrite <- Hs. symmetry.
  apply includes_spec. exists x, (y ++ t). rewrite Ht. by rewrite !str_app_assoc.
Qed.

(** The page's image URL [/jpegs/<name>] reaches the server as the
    segment [jpegs] and the part of the name before [?] or [#], decoded. *)
Lemma serve_jpegs fs cwd n :
  plain_segment n = true ->
  Server.serve fs cwd ("/jpegs/" ++ n) =
    if bool_decide (Server.url_path n = "") then Server.handle fs cwd ["jpegs"]
    else match Uri.decodeURIComponent (Server.url_path n) with
         | Some d => Server.handle fs cwd ["jpegs"; d]
         | None => mkResponse 400 BadRequestPage
         end.
Proof.
  intros Hn. unfold Server.serve, Server.url_segments. rewrite !str_app_cons, str_app_nil_l. simpl.
  rewrite <- (str_app_nil_r (Server.url_path n)), split_no_sep by
    (apply url_path_no_slash, plain_segment_no_slash, Hn).
  simpl. rewrite str_app_nil_r.
  case_bool_decide as He.
  - rewrite He. reflexivity.
  - rewrite filter_cons_True by done. simpl.
    destruct (Uri.decodeURIComponent (Server.url_path n)); reflexivity.
Qed.

(** The two directories, for the literal segments of the routes. *)
Lemma ImagesRoute_datasetPath_eq cwd :
  ImagesRoute.datasetPath cwd = (cwd ++ ["public"; "jpegs"])%list.
Proof. apply path_join_plain. repeat constructor. Qed.

Lemma length_removelast {A} (l : list A) : (length (removelast l) <= length l)%nat.
Proof. induction l as [|x [|y l] IH]; simpl in *; lia. Qed.

End RoutingLemmas.

(** ** Properties of routing *)

Section RoutingProps.
Context `{FileSystem F}.

(** C27. The rewrites of next.config.js make [/images/...] and
    [/masks/...] equivalent to [/api/images/...] and [/api/masks/...]:
    for every rest of the path, both are answered alike unless a file of
    [public/] is found at one of them. *)
Theorem rewrites_equivalence (fs : F) (cwd : path) (prefix : string) (rest : list string) :
  prefix ∈ ["images"; "masks"] ->
  Server.public_file fs cwd (prefix :: rest) = None ->
  Server.public_file fs cwd ("api" :: prefix :: rest) = None ->
  Server.handle fs cwd (prefix :: rest) = Server.handle fs cwd ("api" :: prefix :: rest).
Proof.
  rewrite list_elem_of_In. intros Hp H1 H2. unfold Server.handle. rewrite H1, H2.
  destruct Hp as [<- | [<- | []]]; destruct rest as [|x [|y [|z r]]]; simpl; try done;
    destruct (Server.app_route fs cwd _); done.
Qed.

(** C24. The listing and the image route read different directories:
    whatever the deployment, the image route looks for a listed name
    under [<cwd>/../dataset_web_jpeg], never at the file of
    [<cwd>/public/jpegs] the listing saw; so a listed name whose file is
    only where the listing looks is answered 404 at [/images/<name>],
    which the rewrite sends to the image route. *)
Theorem listing_not_served_by_image_route (fs : F) (cwd : path) names n b :
  ImagesRoute.GET fs cwd = mkResponse 200 (JsonImages names) -> n ∈ names -> url_safe n = true ->
  readFileSync fs (ImagesRoute.datasetPath cwd ++ [n])%list = Some b ->
  existsSync fs (removelast cwd ++ ["dataset_web_jpeg"; n])%list = false ->
  Server.public_file fs cwd ["images"; n] = None ->
  ImageFileRoute.datasetPath cwd n <> (ImagesRoute.datasetPath cwd ++ [n])%list /\
  Server.serve fs cwd ("/images/" ++ n) = mkResponse 404 (JsonError "Image not found").
Proof.
  intros Hget Hn Hu _ Hex Hpub. pose proof (ImagesRoute_names_plain _ _ _ Hget) as Hp.
  rewrite Forall_forall in Hp. specialize (Hp n Hn).
  rewrite ImageFileRoute_datasetPath_plain, ImagesRoute_datasetPath_eq by done. split.
  - intros Heq. apply (f_equal length) in Heq. rewrite !length_app in Heq. simpl in Heq.
    pose proof (length_removelast cwd). lia.
  - change ("/images/" ++ n) with (String "/" (join "/" ["images"; n])).
    rewrite serve_join by (repeat constructor; done). unfold Server.handle. rewrite Hpub. simpl.
    unfold ImageFileRoute.GET. rewrite ImageFileRoute_datasetPath_plain, Hex by done. done.
Qed.

(** C26. The image route does not confine its path to the dataset
    directory: the file name [../<name>] resolves to [<name>] beside the
    application directory and a readable file there is served; the
    request [/api/images/..%2F<name>], or [/images/..%2F<name>] through
    the rewrite, delivers that name to the handler once decoded. *)
Theorem ImageFileRoute_GET_traversal (fs : F) (cwd : path) (name : string) b :
  plain_segment name = true -> url_safe name = true ->
  readFileSync fs (removelast cwd ++ [name])%list = Some b ->
  ImageFileRoute.datasetPath cwd ("../" ++ name) = (removelast cwd ++ [name])%list /\
  ImageFileRoute.GET fs cwd ("../" ++ name) = mkResponse 200 (Bytes "image/jpeg" cache_immutable b) /\
  Server.serve fs cwd ("/api/images/..%2F" ++ name) = mkResponse 200 (Bytes "image/jpeg" cache_immutable b) /\
  Server.serve fs cwd ("/images/..%2F" ++ name) = mkResponse 200 (Bytes "image/jpeg" cache_immutable b).
Proof.
  intros Hn Hu Hb.
  assert (ImageFileRoute.datasetPath cwd ("../" ++ name) = (removelast cwd ++ [name])%list) as Hp.
  { unfold ImageFileRoute.datasetPath, path_join. simpl. rewrite split_plain by done.
    simpl. rewrite str_app_nil_l, push_plain by done. unfold push_segment. simpl.
    by rewrite removelast_last. }
  assert (ImageFileRoute.GET fs cwd ("../" ++ name) = mkResponse 200 (Bytes "image/jpeg" cache_immutable b)) as Hget.
  { unfold ImageFileRoute.GET. rewrite Hp. by rewrite (readFileSync_exists _ _ _ Hb), Hb. }
  split_and!; [done | done | |];
    [rewrite (serve_decoded fs cwd _ ["api"; "images"; String "." (String "." (String "/" name))])
    |rewrite (serve_decoded fs cwd _ ["images"; String "." (String "." (String "/" name))])];
    try (unfold Server.url_segments; rewrite !str_app_cons, str_app_nil_l; simpl;
         rewrite url_path_safe by done; simpl; rewrite split_plain by done; simpl;
         rewrite decode_dotdot by done; reflexivity);
    unfold Server.handle, Server.public_file; simpl;
    rewrite (plain_segment_slash ".." name : plain_segment (String "." (String "." (String "/" name))) = false);
    exact Hget.
Qed.

End RoutingProps.

(** ** The concrete deployment of [Api], and the witnesses *)

Lemma listing_not_served_by_image_route_witness :
  ImageFileRoute.datasetPath demo_cwd "HE_1.jpg" <> (ImagesRoute.datasetPath demo_cwd ++ ["HE_1.jpg"])%list /\
  Server.serve demo_fs demo_cwd ("/images/" ++ "HE_1.jpg") = mkResponse 404 (JsonError "Image not found").
Proof.
  apply (listing_not_served_by_image_route demo_fs demo_cwd ["HE_1.jpg"; "PAS_2.jpg"] _ [Byte.x01]);
    [reflexivity | by left | reflexivity..].
Defined.

Lemma rewrites_equivalence_witness :
  Server.handle demo_fs demo_cwd ["masks"; "HE_1.jpg"] =
  Server.handle demo_fs demo_cwd ["api"; "masks"; "HE_1.jpg"].
Proof. apply rewrites_equivalence; [by right; left | reflexivity | reflexivity]. Defined.

Lemma ImageFileRoute_GET_traversal_witness :
  ImageFileRoute.datasetPath demo_cwd ("../" ++ "secret.jpg") = ["srv"; "secret.jpg"] /\
  ImageFileRoute.GET demo_fs demo_cwd ("../" ++ "secret.jpg")
    = mkResponse 200 (Bytes "image/jpeg" cache_immutable [Byte.x03]) /\
  Server.serve demo_fs demo_cwd ("/api/images/..%2F" ++ "secret.jpg")
    = mkResponse 200 (Bytes "image/jpeg" cache_immutable [Byte.x03]) /\
  Server.serve demo_fs demo_cwd ("/images/..%2F" ++ "secret.jpg")
    = mkResponse 200 (Bytes "image/jpeg" cache_immutable [Byte.x03]).
Proof. apply (ImageFileRoute_GET_traversal demo_fs demo_cwd "secret.jpg"); reflexivity. Defined.
