(* ===== verification/Gallery.v ===== *)
(** * The gallery: [ImageViewer] (src/app/components/ImageViewer.tsx)

    The component keeps [searchTerm] and [viewMode]; it filters the list it
    receives by a case-insensitive substring match on the file name, labels
    each item with [getImageLabel], and calls [onImageSelect] with the
    clicked item; [render] is what it shows.  [ImageData] is the record
    shared with the page and the viewer.  The search-term equivalence "same lowercase form" is a setoid
    under which the filter is [Proper]. *)

From S2P Require Import Prelude JsString.
From Stdlib Require Import Morphisms.

Local Open Scope string_scope.

(** [interface ImageData { filename: string; url: string; }] *)
Record ImageData := mkImageData { filename : string; url : string }.

#[export] Instance ImageData_eq_dec : EqDecision ImageData.
Proof. solve_decision. Defined.

Inductive ViewMode := Grid | List.

#[export] Instance ViewMode_eq_dec : EqDecision ViewMode.
Proof. solve_decision. Defined.

Module ImageViewer.

Record State := mkState { searchTerm : string; viewMode : ViewMode }.

(** [useState('')], [useState<'grid' | 'list'>('grid')] *)
Definition init : State := mkState "" Grid.

(** [images.filter(image => image.filename.toLowerCase().includes(searchTerm.toLowerCase()))] *)
Definition matches (searchTerm : string) (image : ImageData) : bool :=
  includes (toLowerCase (filename image)) (toLowerCase searchTerm).

Definition filteredImages (images : list ImageData) (searchTerm : string) : list ImageData :=
  filter (fun image => matches searchTerm image = true) images.

(** [getImageLabel]: strip the first [.jpg], split on [_]; with at least
    seven parts the label is built from parts 0, 4 and 6. *)
Definition getImageLabel (filename : string) : string :=
  let nameWithoutExt := replace filename ".jpg" "" in
  let parts := split "_" nameWithoutExt in
  if (7 <=? length parts)%nat then
    let stain0 := default "undefined" (parts !! 0%nat) in
    let stain := if bool_decide (stain0 = "HE") then "H&E" else stain0 in
    let slideNumber := default "undefined" (parts !! 4%nat) in
    let roiNumber := default "undefined" (parts !! 6%nat) in
    stain ++ " Slide " ++ slideNumber ++ " ROI " ++ roiNumber
  else nameWithoutExt.

(** The empty-state message is rendered when nothing matches. *)
Definition showsEmptyState (images : list ImageData) (st : State) : bool :=
  bool_decide (filteredImages images (searchTerm st) = []).

(** One rendered item ([key={image.filename}], [src], [alt]): the
    record, its label, and in list mode the file name under the label. *)
Record Tile := mkTile { tileImage : ImageData; tileLabel : string; tileSubtitle : option string }.

(** What the gallery renders. *)
Record View := mkView {
  searchValue : string;     (** the input's [value={searchTerm}] *)
  gridActive : bool;        (** the grid button has the active style, the list button the other *)
  shown : nat;              (** ["Showing {filteredImages.length} of ..."] *)
  total : nat;              (** ["... of {images.length} images"] *)
  layout : ViewMode;        (** the [viewMode === 'grid'] branch *)
  tiles : list Tile;        (** [filteredImages.map(...)] *)
  emptyState : bool         (** ["No images found"] *)
}.

Definition render (images : list ImageData) (st : State) : View :=
  let f := filteredImages images (searchTerm st) in
  mkView (searchTerm st) (bool_decide (viewMode st = Grid)) (length f) (length images) (viewMode st)
    (map (fun image => mkTile image (getImageLabel (filename image))
            (match viewMode st with Grid => None | List => Some (filename image) end)) f)
    (showsEmptyState images st).

Inductive Event :=
| SetSearchTerm (value : string)     (** the input's [onChange] *)
| SetViewMode (mode : ViewMode)      (** the grid / list buttons *)
| ClickItem (index : nat).           (** [onClick={() => onImageSelect(image)}] *)

(** One event: the new state and the image passed to [onImageSelect]. *)
Definition step (images : list ImageData) (st : State) (ev : Event)
    : State * option ImageData :=
  match ev with
  | SetSearchTerm v => (mkState v (viewMode st), None)
  | SetViewMode m => (mkState (searchTerm st) m, None)
  | ClickItem i => (st, filteredImages images (searchTerm st) !! i)
  end.

End ImageViewer.

(** ** Case-insensitive equivalence of search terms *)

Definition ci_equiv (t1 t2 : string) : Prop := toLowerCase t1 = toLowerCase t2.

#[export] Instance ci_equiv_Equivalence : Equivalence ci_equiv.
Proof. unfold ci_equiv. split; red; [done | done | intros ???; by etrans]. Qed.

Lemma ci_equiv_lower t : ci_equiv (toLowerCase t) t.
Proof. unfold ci_equiv. apply toLowerCase_idem. Qed.

#[export] Instance matches_Proper : Proper (ci_equiv ==> eq ==> eq) ImageViewer.matches.
Proof. intros t1 t2 Ht i ? <-. unfold ImageViewer.matches. by rewrite Ht. Qed.

#[export] Instance filteredImages_Proper :
  Proper (eq ==> ci_equiv ==> eq) ImageViewer.filteredImages.
Proof.
  intros imgs ? <- t1 t2 Ht. unfold ImageViewer.filteredImages.
  apply list_filter_iff. intros i. by rewrite Ht.
Qed.

Lemma filteredImages_spec images t image :
  image ∈ ImageViewer.filteredImages images t <->
  image ∈ images /\ exists x y, toLowerCase (filename image) = x ++ toLowerCase t ++ y.
Proof.
  unfold ImageViewer.filteredImages. rewrite list_elem_of_filter.
  unfold ImageViewer.matches. rewrite includes_spec. tauto.
Qed.

Lemma getImageLabel_join (parts : list string) :
  parts <> [] -> Forall (fun p => includes p "_" = false) parts ->
  includes (join "_" parts) ".jpg" = false ->
  ImageViewer.getImageLabel (join "_" parts ++ ".jpg") =
  if (7 <=? length parts)%nat then
    let stain0 := default "undefined" (parts !! 0%nat) in
    (if bool_decide (stain0 = "HE") then "H&E" else stain0) ++ " Slide " ++
    default "undefined" (parts !! 4%nat) ++ " ROI " ++ default "undefined" (parts !! 6%nat)
  else join "_" parts.
Proof.
  intros Hne Hf Hj. unfold ImageViewer.getImageLabel.
  rewrite <- (str_app_nil_r ".jpg"), replace_first by done.
  rewrite !str_app_nil_r. rewrite split_join by done. done.
Qed.

Lemma filteredImages_nil_term images : ImageViewer.filteredImages images "" = images.
Proof.
  apply filter_all. apply Forall_forall. intros i _.
  unfold ImageViewer.matches. apply includes_empty.
Qed.

Lemma render_tiles_lookup images st i :
  ImageViewer.tiles (ImageViewer.render images st) !! i =
  (fun image => ImageViewer.mkTile image (ImageViewer.getImageLabel (filename image))
     (match ImageViewer.viewMode st with Grid => None | List => Some (filename image) end))
  <$> ImageViewer.filteredImages images (ImageViewer.searchTerm st) !! i.
Proof. unfold ImageViewer.render. simpl. by rewrite list_lookup_fmap. Qed.

Lemma ImageViewer_step_click images st i :
  ImageViewer.step images st (ImageViewer.ClickItem i) =
  (st, ImageViewer.filteredImages images (ImageViewer.searchTerm st) !! i).
Proof. reflexivity. Qed.

Lemma ImageViewer_step_select images st e st' image :
  ImageViewer.step images st e = (st', Some image) ->
  st' = st /\ image ∈ images /\ ImageViewer.matches (ImageViewer.searchTerm st) image = true.
Proof.
  destruct e as [v|m|i]; simpl; try discriminate.
  intros [= -> Hi]. split; [done |].
  apply list_elem_of_lookup_2, list_elem_of_filter in Hi. tauto.
Qed.

(** ** Properties of the gallery *)

(** C21. The search is case-insensitive on both sides: search terms
    with the same lowercase form select the same images, in the same
    order; file names with the same lowercase form are selected alike;
    and a term that occurs in a file name as typed, in any case, selects
    it (a search for [HE] finds [HE_1.jpg]). *)
Theorem filteredImages_case_insensitive images t1 t2 img img' :
  ci_equiv t1 t2 -> ci_equiv (filename img) (filename img') ->
  ImageViewer.filteredImages images t1 = ImageViewer.filteredImages images t2 /\
  ImageViewer.matches t1 img = ImageViewer.matches t2 img' /\
  (includes (filename img) t1 = true -> ImageViewer.matches t2 img' = true).
Proof.
  intros Ht Hf. split_and!; [by rewrite Ht | unfold ImageViewer.matches; by rewrite Ht, Hf |].
  intros Hi. unfold ImageViewer.matches. rewrite <- Ht, <- Hf. by apply toLowerCase_includes.
Qed.


(** Typing more narrows the result: when the new term contains the
    old one, the new result is a sub-list of the old result. *)
Theorem filteredImages_narrowing images t1 t2 :
  includes t2 t1 = true ->
  ImageViewer.filteredImages images t2 `sublist_of` ImageViewer.filteredImages images t1.
Proof.
  intros Ht. apply filter_sublist_impl. intros i Hi. unfold ImageViewer.matches in *.
  eapply includes_trans; [apply Hi |]. by apply toLowerCase_includes.
Qed.

(** C31. A file name [p0_p1_..._p6(_...).jpg] whose parts contain no [_]
    (and no [.jpg]) is labelled ["<stain> Slide <p4> ROI <p6>"], the stain
    being ["H&E"] for [HE] and [p0] otherwise. *)
Theorem getImageLabel_seven_parts p0 p1 p2 p3 p4 p5 p6 rest :
  Forall (fun p => includes p "_" = false) (p0 :: p1 :: p2 :: p3 :: p4 :: p5 :: p6 :: rest) ->
  includes (join "_" (p0 :: p1 :: p2 :: p3 :: p4 :: p5 :: p6 :: rest)) ".jpg" = false ->
  ImageViewer.getImageLabel (join "_" (p0 :: p1 :: p2 :: p3 :: p4 :: p5 :: p6 :: rest) ++ ".jpg") =
  (if bool_decide (p0 = "HE") then "H&E" else p0) ++ " Slide " ++ p4 ++ " ROI " ++ p6.
Proof. intros Hf Hj. by rewrite getImageLabel_join. Qed.

(** C35. A file name with fewer than seven [_]-separated parts is
    labelled by its name without the [.jpg] extension. *)
Theorem getImageLabel_few_parts parts :
  parts <> [] -> (length parts < 7)%nat ->
  Forall (fun p => includes p "_" = false) parts ->
  includes (join "_" parts) ".jpg" = false ->
  ImageViewer.getImageLabel (join "_" parts ++ ".jpg") = join "_" parts.
Proof.
  intros Hne Hlen Hf Hj. rewrite getImageLabel_join by done.
  destruct (Nat.leb_spec 7 (length parts)); [lia | done].
Qed.

(** C15. The gallery shows ["Showing k of n images"] with [k <= n],
    one tile per matching image, and ["No images found"] exactly when
    there is none; clicking the [i]-th tile hands its image to
    [onImageSelect], under the label [getImageLabel] gives its file name,
    and a click beyond the tiles selects nothing. *)
Theorem render_tiles_click images st i :
  let v := ImageViewer.render images st in
  (ImageViewer.shown v = length (ImageViewer.tiles v) /\ ImageViewer.shown v <= ImageViewer.total v)%nat /\
  (ImageViewer.emptyState v = true <-> ImageViewer.tiles v = []) /\
  (forall t, ImageViewer.tiles v !! i = Some t ->
     ImageViewer.step images st (ImageViewer.ClickItem i) = (st, Some (ImageViewer.tileImage t)) /\
     ImageViewer.tileLabel t = ImageViewer.getImageLabel (filename (ImageViewer.tileImage t))) /\
  (ImageViewer.tiles v !! i = None -> ImageViewer.step images st (ImageViewer.ClickItem i) = (st, None)).
Proof.
  intros v. subst v. rewrite !render_tiles_lookup, ImageViewer_step_click.
  unfold ImageViewer.render, ImageViewer.showsEmptyState. simpl. rewrite length_map. split_and!.
  - done.
  - apply length_filter.
  - rewrite bool_decide_eq_true. split; [by intros -> | apply map_eq_nil].
  - intros t. destruct (_ !! i); simpl; [intros [= <-] | done]. done.
  - destruct (_ !! i); done.
Qed.

(** ** Witnesses *)

Definition demo_images : list ImageData :=
  [mkImageData "HE_A.jpg" "/jpegs/HE_A.jpg"; mkImageData "PAS_b.jpg" "/jpegs/PAS_b.jpg"].

Lemma filteredImages_case_insensitive_witness :
  ImageViewer.filteredImages demo_images "HE" = ImageViewer.filteredImages demo_images "he" /\
  ImageViewer.matches "HE" (mkImageData "HE_A.jpg" "/jpegs/HE_A.jpg") =
    ImageViewer.matches "he" (mkImageData "he_a.jpg" "/jpegs/he_a.jpg") /\
  (includes "HE_A.jpg" "HE" = true -> ImageViewer.matches "he" (mkImageData "he_a.jpg" "/jpegs/he_a.jpg") = true).
Proof. apply filteredImages_case_insensitive; reflexivity. Defined.

Lemma filteredImages_narrowing_witness :
  includes "pas_b" "pas" = true /\
  ImageViewer.filteredImages demo_images "pas_b" `sublist_of` ImageViewer.filteredImages demo_images "pas".
Proof. split; [reflexivity |]. apply filteredImages_narrowing. reflexivity. Defined.

Lemma getImageLabel_seven_parts_witness :
  ImageViewer.getImageLabel (join "_" ["HE"; "a"; "b"; "S"; "3"; "ROI"; "2"] ++ ".jpg") = "H&E Slide 3 ROI 2".
Proof. apply getImageLabel_seven_parts; [repeat constructor | reflexivity]. Defined.

Lemma getImageLabel_few_parts_witness :
  ImageViewer.getImageLabel (join "_" ["PAS"; "short"] ++ ".jpg") = join "_" ["PAS"; "short"].
Proof. apply getImageLabel_few_parts; [done | simpl; lia | repeat constructor | reflexivity]. Defined.

Lemma render_tiles_click_witness :
  ImageViewer.step demo_images (ImageViewer.mkState "pas" List) (ImageViewer.ClickItem 0) =
    (ImageViewer.mkState "pas" List, Some (mkImageData "PAS_b.jpg" "/jpegs/PAS_b.jpg")) /\
  ImageViewer.tileLabel (ImageViewer.mkTile (mkImageData "PAS_b.jpg" "/jpegs/PAS_b.jpg") "PAS_b" (Some "PAS_b.jpg"))
    = ImageViewer.getImageLabel "PAS_b.jpg".
Proof.
  apply (proj1 (proj2 (proj2 (render_tiles_click demo_images (ImageViewer.mkState "pas" List) 0)))
    (ImageViewer.mkTile (mkImageData "PAS_b.jpg" "/jpegs/PAS_b.jpg") "PAS_b" (Some "PAS_b.jpg"))).
  reflexivity.
Defined.
