(* ===== verification/Viewer.v ===== *)
(** * The full-screen viewer: [FullPageViewer]
      (src/app/components/FullPageViewer.tsx)

    [Module FullPageViewer] holds the component's state record (the five
    [useState] hooks), its props ([image], [images]), [currentIndex],
    [goToPrevious], [goToNext], the window [keydown] handler, the reset
    effect keyed on [image.filename], its copy of [getImageLabel], the
    handlers of the rendered controls and the rendered [View] (title,
    counter, opacity control, arrows, loading indicator, mask overlay).  A
    handler returns the new state and the callback it invokes
    ([onClose] or [onImageChange]).  [Module ViewerSpec] is the spec's
    five-state machine (closed, open without mask, mask loading, mask
    shown, mask error) with the abstraction of a concrete state.  With
    distinct file names navigation is a round trip and terminates. *)

From S2P Require Import Prelude JsString Gallery.
From Stdlib Require Import Wellfounded Wf_nat.

Local Open Scope string_scope.

Module FullPageViewer.

(** Opacity is kept in tenths: the slider's values 0.1 .. 1.0 are 1 .. 10. *)
Record State := mkState {
  showMask : bool;
  imageLoaded : bool;
  maskLoaded : bool;
  maskError : bool;
  maskOpacity : Z
}.

(** [useState(false)] four times and [useState(0.6)]. *)
Definition init : State := mkState false false false false 6.

(** [onImageChange] receives whatever [images[i]] is: an element, or
    [undefined] ([None]) for an index outside the array. *)
Inductive Callback := OnClose | OnImageChange (image : option ImageData).

(** [images.findIndex(img => img.filename === image.filename)] *)
Definition currentIndex (image : ImageData) (images : list ImageData) : Z :=
  find_index (fun img => bool_decide (filename img = filename image)) images.

(** The bodies of the [goToPrevious] and [goToNext] callbacks, over the
    values they close over: [currentIndex] and [images], the
    dependencies of their [useCallback] (with [onImageChange], which is
    the page's state setter and never changes). *)
Definition previousAt (i : Z) (images : list ImageData) : option Callback :=
  if (0 <? i)%Z then Some (OnImageChange images.[i - 1]) else None.

Definition nextAt (i : Z) (images : list ImageData) : option Callback :=
  if (i <? Z.of_nat (length images) - 1)%Z then Some (OnImageChange images.[i + 1]) else None.

Definition goToPrevious (image : ImageData) (images : list ImageData) : option Callback :=
  previousAt (currentIndex image images) images.

Definition goToNext (image : ImageData) (images : list ImageData) : option Callback :=
  nextAt (currentIndex image images) images.

Definition toggleMask (st : State) : State :=
  mkState (negb (showMask st)) (imageLoaded st) (maskLoaded st) (maskError st) (maskOpacity st).

(** What the window [keydown] listener registered by the effect of
    lines 48-69 closes over: [goToPrevious] and [goToNext], so the
    [currentIndex] and [images] they captured, and [showMask]. *)
Record Captured := mkCaptured { capIndex : Z; capImages : list ImageData; capShowMask : bool }.

Definition capture (image : ImageData) (images : list ImageData) (st : State) : Captured :=
  mkCaptured (currentIndex image images) images (showMask st).

(** The registered [handleKeyDown], the [switch] on [event.key]: it reads
    the captured values; only [setShowMask(!showMask)] writes state. *)
Definition listener (c : Captured) (st : State) (key : string) : State * option Callback :=
  if bool_decide (key = "Escape") then (st, Some OnClose)
  else if bool_decide (key = "ArrowLeft") then (st, previousAt (capIndex c) (capImages c))
  else if bool_decide (key = "ArrowRight") then (st, nextAt (capIndex c) (capImages c))
  else if bool_decide (key = "m") || bool_decide (key = "M") then
    (mkState (negb (capShowMask c)) (imageLoaded st) (maskLoaded st) (maskError st) (maskOpacity st), None)
  else (st, None).

(** A key press with the listener registered for the current render. *)
Definition handleKeyDown (image : ImageData) (images : list ImageData) (st : State)
    (key : string) : State * option Callback :=
  listener (capture image images st) st key.

(** The effect on [[image.filename]]: the load flags are cleared; the
    overlay toggle and the opacity are kept. *)
Definition resetOnImageChange (st : State) : State :=
  mkState (showMask st) false false false (maskOpacity st).

(** [getImageLabel]: the viewer's own copy of the gallery's function. *)
Definition getImageLabel (filename : string) : string :=
  let nameWithoutExt := replace filename ".jpg" "" in
  let parts := split "_" nameWithoutExt in
  if (7 <=? length parts)%nat then
    let stain0 := default "undefined" (parts !! 0%nat) in
    let stain := if bool_decide (stain0 = "HE") then "H&E" else stain0 in
    let slideNumber := default "undefined" (parts !! 4%nat) in
    let roiNumber := default "undefined" (parts !! 6%nat) in
    stain ++ " Slide " ++ slideNumber ++ " ROI " ++ roiNumber
  else nameWithoutExt.

(** The range input ([min=0.1 max=1 step=0.1]) only yields 0.1 .. 1.0. *)
Definition rangeValue (v : Z) : Z := Z.max 1 (Z.min 10 v).

Inductive Input :=
| KeyDown (key : string)      (** window [keydown] *)
| ToggleClick                 (** the Show/Hide Mask button *)
| CloseClick                  (** the close button *)
| PrevClick                   (** the left arrow button *)
| NextClick                   (** the right arrow button *)
| OpacityInput (value : Z)    (** the slider's [onChange] *)
| ImageLoad                   (** the main image's [onLoad] *)
| MaskLoad                    (** the mask image's [onLoad] *)
| MaskFail.                   (** the mask image's [onError] *)

(** The handler each input runs. *)
Definition react (image : ImageData) (images : list ImageData) (st : State) (inp : Input)
    : State * option Callback :=
  match inp with
  | KeyDown k => handleKeyDown image images st k
  | ToggleClick => (toggleMask st, None)
  | CloseClick => (st, Some OnClose)
  | PrevClick => (st, goToPrevious image images)
  | NextClick => (st, goToNext image images)
  | OpacityInput v =>
      (mkState (showMask st) (imageLoaded st) (maskLoaded st) (maskError st) (rangeValue v), None)
  | ImageLoad => (mkState (showMask st) true (maskLoaded st) (maskError st) (maskOpacity st), None)
  | MaskLoad => (mkState (showMask st) (imageLoaded st) true (maskError st) (maskOpacity st), None)
  | MaskFail => (mkState (showMask st) (imageLoaded st) (maskLoaded st) true (maskOpacity st), None)
  end.

(** Which inputs can happen: an element exists only when it is rendered
    (the arrows under their conditions, the slider while the mask is
    shown, the mask image while the mask is shown and has not failed). *)
Definition enabled (image : ImageData) (images : list ImageData) (st : State) (inp : Input) : bool :=
  let i := currentIndex image images in
  match inp with
  | PrevClick => (0 <? i)%Z
  | NextClick => (i <? Z.of_nat (length images) - 1)%Z
  | OpacityInput _ => showMask st
  | MaskLoad | MaskFail => showMask st && negb (maskError st)
  | _ => true
  end.

(** Rendered text: ["{currentIndex + 1} of {images.length}"] and
    ["{Math.round(maskOpacity * 100)}%"]. *)
Definition counter (image : ImageData) (images : list ImageData) : Z * Z :=
  (currentIndex image images + 1, Z.of_nat (length images))%Z.

Definition opacityPercent (st : State) : Z := maskOpacity st * 10.

Inductive Overlay :=
| NoOverlay
| MaskImage (loadingIndicator : bool)
| MaskNotAvailable.

(** The [showMask && (...)] block. *)
Definition overlay (st : State) : Overlay :=
  if negb (showMask st) then NoOverlay
  else if maskError st then MaskNotAvailable
  else MaskImage (negb (maskLoaded st)).

(** What the viewer renders, element by element. *)
Record View := mkView {
  title : string;               (** [<h2>{getImageLabel(image.filename)}</h2>] *)
  position : Z * Z;             (** ["{currentIndex + 1} of {images.length}"] *)
  opacityControl : option Z;    (** the slider block and its percentage, while [showMask] *)
  toggleLabel : string;         (** ["{showMask ? 'Hide' : 'Show'} Mask"] *)
  prevArrow : bool;             (** [currentIndex > 0 && <button>] *)
  nextArrow : bool;             (** [currentIndex < images.length - 1 && <button>] *)
  mainSrc : string;             (** [<img src={image.url}>] *)
  loadingIndicator : bool;      (** [!imageLoaded && "Loading..."] *)
  maskLayer : Overlay;          (** the [showMask && (...)] block *)
  maskSrc : option string       (** [<img src={`/masks/${image.filename}`}>] when rendered *)
}.

Definition render (image : ImageData) (images : list ImageData) (st : State) : View :=
  let i := currentIndex image images in
  mkView (getImageLabel (filename image)) (counter image images)
    (if showMask st then Some (opacityPercent st) else None)
    ((if showMask st then "Hide" else "Show") ++ " Mask")
    (0 <? i)%Z (i <? Z.of_nat (length images) - 1)%Z
    (url image) (negb (imageLoaded st)) (overlay st)
    (match overlay st with MaskImage _ => Some ("/masks/" ++ filename image) | _ => None end).

(** The opacity is one of the slider's values. *)
Definition opacity_ok (st : State) : Prop := (1 <= maskOpacity st <= 10)%Z.

(** The inputs whose handler only sets the viewer's own state: all but
    [Escape], the arrow keys and the close and arrow buttons, which call
    [onClose] or [onImageChange]. *)
Definition local_input (inp : Input) : bool :=
  match inp with
  | KeyDown k => negb (bool_decide (k ∈ ["Escape"; "ArrowLeft"; "ArrowRight"]))
  | CloseClick | PrevClick | NextClick => false
  | _ => true
  end.

End FullPageViewer.

(** ** The spec's state machine of the viewer *)

Module ViewerSpec.

Inductive MaskPhase := NoMask | MaskLoading | MaskShown | MaskError.

(** Closed, or open on a file with the overlay in one of four phases. *)
Inductive Phase := Closed | Open (file : string) (m : MaskPhase).

#[export] Instance MaskPhase_eq_dec : EqDecision MaskPhase.
Proof. solve_decision. Defined.
#[export] Instance Phase_eq_dec : EqDecision Phase.
Proof. solve_decision. Defined.

(** After an image change the mask of the new image is loading if the
    overlay is on. *)
Definition after_change (m : MaskPhase) : MaskPhase :=
  match m with NoMask => NoMask | _ => MaskLoading end.

(** The transitions the spec's description allows; the [*_again] ones
    (showing a mask again after it was hidden, for the same image) and
    [sp_refetch_failed] (the remounted mask image failing) are what the
    code adds to the spec's list. *)
Inductive spec_step : Phase -> Phase -> Prop :=
| sp_open f : spec_step Closed (Open f NoMask)
| sp_close f m : spec_step (Open f m) Closed
| sp_show f : spec_step (Open f NoMask) (Open f MaskLoading)
| sp_show_again_shown f : spec_step (Open f NoMask) (Open f MaskShown)
| sp_show_again_error f : spec_step (Open f NoMask) (Open f MaskError)
| sp_hide f m : m <> NoMask -> spec_step (Open f m) (Open f NoMask)
| sp_loaded f : spec_step (Open f MaskLoading) (Open f MaskShown)
| sp_failed f : spec_step (Open f MaskLoading) (Open f MaskError)
| sp_refetch_failed f : spec_step (Open f MaskShown) (Open f MaskError)
| sp_navigate f f' m : f <> f' -> spec_step (Open f m) (Open f' (after_change m)).

Definition mask_phase (st : FullPageViewer.State) : MaskPhase :=
  if negb (FullPageViewer.showMask st) then NoMask
  else if FullPageViewer.maskError st then MaskError
  else if FullPageViewer.maskLoaded st then MaskShown
  else MaskLoading.

(** The phase of the client: open exactly when an image is selected and
    the viewer is mounted. *)
Definition phase_of (sel : option ImageData) (v : option FullPageViewer.State) : Phase :=
  match sel, v with
  | Some img, Some st => Open (filename img) (mask_phase st)
  | _, _ => Closed
  end.

(** A concrete move is an allowed transition or leaves the phase alone. *)
Definition allowed (p p' : Phase) : Prop := p' = p \/ spec_step p p'.

End ViewerSpec.

(** ** Lemmas on the viewer *)

Section ViewerLemmas.
Import FullPageViewer ViewerSpec.

Lemma currentIndex_range image images :
  (-1 <= currentIndex image images < Z.of_nat (length images))%Z.
Proof. apply find_index_range. Qed.

Lemma currentIndex_elem image images :
  image ∈ images -> (0 <= currentIndex image images)%Z.
Proof. intros H. eapply find_index_elem; [apply H | by apply bool_decide_eq_true_2]. Qed.

Lemma goToNext_some image images cb :
  goToNext image images = Some cb ->
  exists img, cb = OnImageChange (Some img) /\
    images.[currentIndex image images + 1] = Some img /\
    (currentIndex image images + 1 < Z.of_nat (length images))%Z.
Proof.
  unfold goToNext, nextAt. pose proof (currentIndex_range image images).
  destruct (Z.ltb_spec (currentIndex image images) (Z.of_nat (length images) - 1)); [| done].
  destruct (js_at_in_range images (currentIndex image images + 1)) as (img & Hi & _); [lia |].
  intros [= <-]. exists img. rewrite Hi. split; [done | split; [done | lia]].
Qed.

Lemma goToPrevious_some image images cb :
  goToPrevious image images = Some cb ->
  exists img, cb = OnImageChange (Some img) /\
    images.[currentIndex image images - 1] = Some img /\ (0 <= currentIndex image images - 1)%Z.
Proof.
  unfold goToPrevious, previousAt. pose proof (currentIndex_range image images).
  destruct (Z.ltb_spec 0 (currentIndex image images)); [| done].
  destruct (js_at_in_range images (currentIndex image images - 1)) as (img & Hi & _); [lia |].
  intros [= <-]. exists img. rewrite Hi. split; [done | split; [done | lia]].
Qed.

Lemma react_callback image images st inp cb :
  snd (react image images st inp) = Some cb ->
  cb = OnClose \/ goToNext image images = Some cb \/ goToPrevious image images = Some cb.
Proof.
  destruct inp as [k| | | | | | | |]; simpl; try discriminate; try naive_solver.
  unfold handleKeyDown, listener. repeat case_bool_decide; simpl; try discriminate; try naive_solver.
Qed.

Lemma handleKeyDown_state image images st k :
  fst (handleKeyDown image images st k) = st \/ fst (handleKeyDown image images st k) = toggleMask st.
Proof. unfold handleKeyDown, listener. repeat case_bool_decide; simpl; auto. Qed.

Lemma rangeValue_bounds v : (1 <= rangeValue v <= 10)%Z.
Proof. unfold rangeValue. lia. Qed.

Lemma react_opacity image images st inp :
  maskOpacity (fst (react image images st inp)) = maskOpacity st \/
  exists v, maskOpacity (fst (react image images st inp)) = rangeValue v.
Proof.
  destruct inp as [k| | | | |v| | |]; simpl; eauto.
  destruct (handleKeyDown_state image images st k) as [-> | ->]; auto.
Qed.

Lemma react_preserves_opacity image images st inp :
  opacity_ok st -> opacity_ok (fst (react image images st inp)).
Proof.
  unfold opacity_ok. intros Hst.
  destruct (react_opacity image images st inp) as [-> | [v ->]]; [done | apply rangeValue_bounds].
Qed.

Lemma reset_preserves_opacity st : opacity_ok st -> opacity_ok (resetOnImageChange st).
Proof. done. Qed.

Lemma init_opacity : opacity_ok init.
Proof. unfold opacity_ok. simpl. lia. Qed.

(** A navigation callback leaves the viewer's own state alone and names
    an element of the list (never [undefined]). *)
Lemma react_image_change image images st inp oimg :
  snd (react image images st inp) = Some (OnImageChange oimg) ->
  fst (react image images st inp) = st /\ exists img, oimg = Some img /\ img ∈ images.
Proof.
  intros Hcb. pose proof (react_callback _ _ _ _ _ Hcb) as [Hc | [Hn | Hp]]; [done | |].
  - apply goToNext_some in Hn as (img & [= ->] & Hi & _).
    split; [| exists img; split; [done | by eapply js_at_Some_elem]].
    destruct inp as [k| | | | | | | |]; simpl in *; try done.
    unfold handleKeyDown, listener in *. repeat case_bool_decide; simpl in *; done.
  - apply goToPrevious_some in Hp as (img & [= ->] & Hi & _).
    split; [| exists img; split; [done | by eapply js_at_Some_elem]].
    destruct inp as [k| | | | | | | |]; simpl in *; try done.
    unfold handleKeyDown, listener in *. repeat case_bool_decide; simpl in *; done.
Qed.

Ltac solve_allowed :=
  unfold allowed, mask_phase; simpl;
  first [ left; reflexivity
        | right; econstructor; congruence ].

(** Every handler of the viewer is a move of the spec's machine on the
    open file. *)
Lemma react_allowed f image images st inp :
  allowed (Open f (mask_phase st)) (Open f (mask_phase (fst (react image images st inp)))).
Proof.
  destruct inp as [k| | | | |v| | |]; simpl.
  1: destruct (handleKeyDown_state image images st k) as [-> | ->].
  all: destruct st as [[] [] [] [] o]; solve_allowed.
Qed.

(** An image change with its reset is the spec's navigation. *)
Lemma reset_navigate f f' st :
  f <> f' -> spec_step (Open f (mask_phase st)) (Open f' (mask_phase (resetOnImageChange st))).
Proof.
  intros Hf. replace (mask_phase (resetOnImageChange st)) with (after_change (mask_phase st)).
  - by constructor.
  - destruct st as [[] [] [] [] o]; reflexivity.
Qed.

(** With distinct file names, an element is found at its own index. *)
Lemma currentIndex_lookup images k img :
  NoDup (filename <$> images) -> images !! k = Some img -> currentIndex img images = Z.of_nat k.
Proof. apply find_index_NoDup. Qed.

Lemma currentIndex_js_at images i img :
  NoDup (filename <$> images) -> images.[i] = Some img -> currentIndex img images = i.
Proof.
  intros Hnd Hi. unfold js_at in Hi. destruct (Z.ltb_spec i 0); [done |].
  rewrite (currentIndex_lookup _ _ _ Hnd Hi). lia.
Qed.

Lemma currentIndex_self images img :
  NoDup (filename <$> images) -> img ∈ images -> images.[currentIndex img images] = Some img.
Proof.
  intros Hnd (k & Hk)%list_elem_of_lookup.
  rewrite (currentIndex_lookup _ _ _ Hnd Hk), js_at_nonneg by lia. by rewrite Nat2Z.id.
Qed.

Lemma goToNext_index images image img :
  NoDup (filename <$> images) -> goToNext image images = Some (OnImageChange (Some img)) ->
  currentIndex img images = (currentIndex image images + 1)%Z.
Proof. intros Hnd (img' & [= <-] & Hi & _)%goToNext_some. by apply currentIndex_js_at. Qed.

Lemma goToPrevious_index images image img :
  NoDup (filename <$> images) -> goToPrevious image images = Some (OnImageChange (Some img)) ->
  currentIndex img images = (currentIndex image images - 1)%Z.
Proof. intros Hnd (img' & [= <-] & Hi & _)%goToPrevious_some. by apply currentIndex_js_at. Qed.

(** The inputs that can happen are those whose element is rendered. *)
Lemma enabled_render image images st inp :
  enabled image images st inp =
  match inp with
  | PrevClick => prevArrow (render image images st)
  | NextClick => nextArrow (render image images st)
  | OpacityInput _ => bool_decide (is_Some (opacityControl (render image images st)))
  | MaskLoad | MaskFail => bool_decide (is_Some (maskSrc (render image images st)))
  | _ => true
  end.
Proof.
  destruct inp; try reflexivity; destruct st as [[] ? [] [] ?]; reflexivity.
Qed.

(** The main image's [load] changes no rendering condition. *)
Lemma enabled_image_load image images st inp :
  enabled image images (fst (react image images st ImageLoad)) inp = enabled image images st inp.
Proof. by destruct inp. Qed.

(** A local input calls nothing back and commutes with the main image's
    [load]: [setImageLoaded(true)] touches a flag no local handler reads
    or writes. *)
Lemma react_local_image_load image images st inp :
  local_input inp = true ->
  snd (react image images st inp) = None /\
  react image images (fst (react image images st ImageLoad)) inp =
  (fst (react image images (fst (react image images st inp)) ImageLoad), None).
Proof.
  destruct inp as [k| | | | | | | |]; try done.
  simpl. intros Hk%negb_true_iff%bool_decide_eq_false.
  unfold handleKeyDown, listener. simpl.
  repeat case_bool_decide; subst; try set_solver; done.
Qed.

End ViewerLemmas.

#[export] Hint Resolve react_allowed reset_navigate rangeValue_bounds : glom.

(** ** Properties of the viewer *)

Section ViewerProps.
Import FullPageViewer ViewerSpec.

(** C3. Navigating forward moves to the element right after the current
    index, and only when one exists: [goToNext] calls [onImageChange] with
    [img] exactly when [currentIndex + 1] is an index of the list holding
    [img]. *)
Theorem goToNext_spec image images img :
  (forall cb, goToNext image images = Some cb -> exists img', cb = OnImageChange (Some img')) /\
  (goToNext image images = Some (OnImageChange (Some img)) <->
   (currentIndex image images + 1 < Z.of_nat (length images))%Z /\
   images.[currentIndex image images + 1] = Some img).
Proof.
  split; [intros cb (img' & -> & _)%goToNext_some; eauto |]. split.
  - intros (img' & [= <-] & Hi & Hlt)%goToNext_some. done.
  - intros [Hlt Hi]. unfold goToNext, nextAt.
    destruct (Z.ltb_spec (currentIndex image images) (Z.of_nat (length images) - 1)); [| lia].
    by rewrite Hi.
Qed.

(** C23. Navigating back moves to the element right before the current
    index, and only when the current index is positive. *)
Theorem goToPrevious_spec image images img :
  (forall cb, goToPrevious image images = Some cb -> exists img', cb = OnImageChange (Some img')) /\
  (goToPrevious image images = Some (OnImageChange (Some img)) <->
   (0 < currentIndex image images)%Z /\ images.[currentIndex image images - 1] = Some img).
Proof.
  split; [intros cb (img' & -> & _)%goToPrevious_some; eauto |]. split.
  - intros (img' & [= <-] & Hi & Hge)%goToPrevious_some. split; [lia | done].
  - intros [Hlt Hi]. unfold goToPrevious, previousAt.
    destruct (Z.ltb_spec 0 (currentIndex image images)); [| lia]. by rewrite Hi.
Qed.

(** C4. There is no wrap-around: at the last image [ArrowRight] and at
    the first image [ArrowLeft] change neither the state nor the
    selection. *)
Theorem handleKeyDown_edges image images st :
  (currentIndex image images = Z.of_nat (length images) - 1 ->
   handleKeyDown image images st "ArrowRight" = (st, None))%Z /\
  (currentIndex image images = 0%Z -> handleKeyDown image images st "ArrowLeft" = (st, None)).
Proof.
  split; intros Hi; unfold handleKeyDown, listener; simpl.
  - unfold goToNext, nextAt. rewrite Hi. by rewrite Z.ltb_irrefl.
  - unfold goToPrevious, previousAt. by rewrite Hi.
Qed.

(** C29. When the selected image is not in the list (its file name is
    not found), [ArrowRight] jumps to the first image, [ArrowLeft] does
    nothing, and the counter reads ["0 of n"]. *)
Theorem navigation_from_missing_image image img0 rest :
  currentIndex image (img0 :: rest) = (-1)%Z ->
  goToNext image (img0 :: rest) = Some (OnImageChange (Some img0)) /\
  goToPrevious image (img0 :: rest) = None /\
  counter image (img0 :: rest) = (0%Z, Z.of_nat (S (length rest))).
Proof.
  intros Hi. unfold goToNext, goToPrevious, nextAt, previousAt, counter. rewrite Hi. simpl length.
  split; [| split; [done | done]].
  destruct (Z.ltb_spec (-1) (Z.of_nat (S (length rest)) - 1)); [done | lia].
Qed.

(** Toggling the mask twice (button or [m]/[M] keys, in any mix)
    restores the viewer's state and invokes no callback. *)
Theorem toggle_twice image images st k1 k2 :
  k1 ∈ ["m"; "M"] -> k2 ∈ ["m"; "M"] ->
  let st1 := fst (handleKeyDown image images st k1) in
  handleKeyDown image images st1 k2 = (st, None) /\
  react image images (fst (react image images st ToggleClick)) ToggleClick = (st, None).
Proof.
  intros Hk1%list_elem_of_In Hk2%list_elem_of_In.
  destruct Hk1 as [<- | [<- | []]], Hk2 as [<- | [<- | []]];
    destruct st as [[] ? ? ? ?]; split; reflexivity.
Qed.

(** C30. The opacity stays one of the slider's values (0.1 .. 1.0) through
    every handler and every image change, so the displayed percentage
    stays between 10% and 100%. *)
Theorem opacity_bounds image images st inp :
  opacity_ok st ->
  opacity_ok (fst (react image images st inp)) /\ opacity_ok (resetOnImageChange st) /\
  (10 <= opacityPercent (fst (react image images st inp)) <= 100)%Z.
Proof.
  intros Hst. pose proof (react_preserves_opacity image images st inp Hst) as H'.
  split; [done | split; [by apply reset_preserves_opacity |]].
  unfold opacity_ok, opacityPercent in *. lia.
Qed.

(** While the selected image is in the list, the counter reads
    ["k of n"] with [1 <= k <= n]. *)
Theorem counter_bounds image images :
  image ∈ images ->
  (1 <= fst (counter image images) <= snd (counter image images))%Z.
Proof.
  intros Hin. pose proof (currentIndex_elem image images Hin).
  pose proof (currentIndex_range image images). unfold counter. simpl. lia.
Qed.

(** C13. With distinct file names, [ArrowRight] followed by
    [ArrowLeft] (or the arrow buttons) returns to the image one started
    from, and so does [ArrowLeft] followed by [ArrowRight]. *)
Theorem navigation_roundtrip image images img :
  NoDup (filename <$> images) -> image ∈ images ->
  (goToNext image images = Some (OnImageChange (Some img)) ->
   goToPrevious img images = Some (OnImageChange (Some image))) /\
  (goToPrevious image images = Some (OnImageChange (Some img)) ->
   goToNext img images = Some (OnImageChange (Some image))).
Proof.
  intros Hnd Hin. pose proof (currentIndex_self _ _ Hnd Hin) as Hself.
  pose proof (currentIndex_elem _ _ Hin). pose proof (currentIndex_range image images).
  split; intros Hstep.
  - rewrite <- Hself. unfold goToPrevious, previousAt. rewrite (goToNext_index _ _ _ Hnd Hstep).
    destruct (Z.ltb_spec 0 (currentIndex image images + 1)); [| lia]. do 3 f_equal. lia.
  - rewrite <- Hself. unfold goToNext, nextAt. rewrite (goToPrevious_index _ _ _ Hnd Hstep).
    destruct (Z.ltb_spec (currentIndex image images - 1) (Z.of_nat (length images) - 1)); [| lia].
    do 3 f_equal. lia.
Qed.

(** C10. With distinct file names, navigation terminates in both
    directions: there is no infinite chain of [ArrowRight] (or of
    [ArrowLeft]) presses that each change the image. *)
Theorem navigation_terminates images :
  NoDup (filename <$> images) ->
  well_founded (fun j i => goToNext i images = Some (OnImageChange (Some j))) /\
  well_founded (fun j i => goToPrevious i images = Some (OnImageChange (Some j))).
Proof.
  intros Hnd. split.
  - apply (wf_incl _ _ (ltof _ (fun i => Z.to_nat (Z.of_nat (length images) - currentIndex i images)))).
    2: apply well_founded_ltof.
    intros j i Hji. unfold ltof. rewrite (goToNext_index _ _ _ Hnd Hji).
    apply goToNext_some in Hji as (_ & _ & _ & Hlt). lia.
  - apply (wf_incl _ _ (ltof _ (fun i => Z.to_nat (currentIndex i images + 1)))).
    2: apply well_founded_ltof.
    intros j i Hji. unfold ltof. rewrite (goToPrevious_index _ _ _ Hnd Hji).
    apply goToPrevious_some in Hji as (? & _ & _ & Hge). lia.
Qed.

End ViewerProps.

(** ** Witnesses *)

Definition demo_he : ImageData := mkImageData "HE_A.jpg" "/jpegs/HE_A.jpg".
Definition demo_pas : ImageData := mkImageData "PAS_b.jpg" "/jpegs/PAS_b.jpg".
Definition demo_other : ImageData := mkImageData "HE_Z.jpg" "/jpegs/HE_Z.jpg".

Lemma goToNext_spec_witness :
  FullPageViewer.goToNext demo_he demo_images = Some (FullPageViewer.OnImageChange (Some demo_pas)).
Proof. apply goToNext_spec. split; reflexivity. Defined.

Lemma goToPrevious_spec_witness :
  FullPageViewer.goToPrevious demo_pas demo_images = Some (FullPageViewer.OnImageChange (Some demo_he)).
Proof. apply goToPrevious_spec. split; reflexivity. Defined.

Lemma handleKeyDown_edges_witness :
  FullPageViewer.handleKeyDown demo_pas demo_images FullPageViewer.init "ArrowRight"
    = (FullPageViewer.init, None) /\
  FullPageViewer.handleKeyDown demo_he demo_images FullPageViewer.init "ArrowLeft"
    = (FullPageViewer.init, None).
Proof.
  split.
  - apply (proj1 (handleKeyDown_edges demo_pas demo_images FullPageViewer.init)). reflexivity.
  - apply (proj2 (handleKeyDown_edges demo_he demo_images FullPageViewer.init)). reflexivity.
Defined.

Lemma navigation_from_missing_image_witness :
  FullPageViewer.goToNext demo_other demo_images = Some (FullPageViewer.OnImageChange (Some demo_he)) /\
  FullPageViewer.goToPrevious demo_other demo_images = None /\
  FullPageViewer.counter demo_other demo_images = (0%Z, 2%Z).
Proof. apply (navigation_from_missing_image demo_other demo_he [demo_pas]). reflexivity. Defined.

Lemma toggle_twice_witness :
  FullPageViewer.handleKeyDown demo_he demo_images
    (fst (FullPageViewer.handleKeyDown demo_he demo_images FullPageViewer.init "m")) "M"
    = (FullPageViewer.init, None) /\
  FullPageViewer.react demo_he demo_images
    (fst (FullPageViewer.react demo_he demo_images FullPageViewer.init FullPageViewer.ToggleClick))
    FullPageViewer.ToggleClick = (FullPageViewer.init, None).
Proof. apply toggle_twice; [by left | by right; left]. Defined.

Lemma opacity_bounds_witness :
  FullPageViewer.opacity_ok
    (fst (FullPageViewer.react demo_he demo_images FullPageViewer.init (FullPageViewer.OpacityInput 42))) /\
  FullPageViewer.opacity_ok (FullPageViewer.resetOnImageChange FullPageViewer.init) /\
  (10 <= FullPageViewer.opacityPercent
          (fst (FullPageViewer.react demo_he demo_images FullPageViewer.init (FullPageViewer.OpacityInput 42))) <= 100)%Z.
Proof. apply opacity_bounds. unfold FullPageViewer.opacity_ok. simpl. lia. Defined.

Lemma counter_bounds_witness :
  (1 <= fst (FullPageViewer.counter demo_pas demo_images) <= snd (FullPageViewer.counter demo_pas demo_images))%Z.
Proof. apply counter_bounds. right. left. Defined.

Lemma navigation_roundtrip_witness :
  FullPageViewer.goToPrevious demo_pas demo_images = Some (FullPageViewer.OnImageChange (Some demo_he)).
Proof.
  apply (navigation_roundtrip demo_he demo_images demo_pas).
  - apply (bool_decide_unpack _). vm_compute. exact I.
  - by left.
  - reflexivity.
Defined.

Lemma navigation_terminates_witness :
  well_founded (fun j i => FullPageViewer.goToNext i demo_images = Some (FullPageViewer.OnImageChange (Some j))).
Proof. apply navigation_terminates. apply (bool_decide_unpack _). vm_compute. exact I. Defined.
