(* ===== verification/Page.v ===== *)
(** * The page: [Home] (src/app/page.tsx)

    [Module Home] holds the page's four [useState] hooks, [fetchImages]
    (the one fetch of [/api/images] made on mount), the tab filter
    [filteredImages], the counts [heCount] and [pasCount], the callbacks
    [handleImageSelect], [handleCloseViewer] and
    [onImageChange = setSelectedImage], and [render], what the page shows
    (the loading branch, the header count, the tab buttons, and the props
    it passes to the gallery and the viewer).  The page composed with its
    children is in [Client]. *)

From S2P Require Import Prelude JsString Api Gallery.

Local Open Scope string_scope.

Inductive Tab := TabAll | TabHE | TabPAS.

#[export] Instance Tab_eq_dec : EqDecision Tab.
Proof. solve_decision. Defined.

(** What [await fetch('/api/images')] and [await response.json()] give:
    a JSON body, or a rejection (network error, or a body that is not
    JSON, which makes [response.json()] throw). *)
Inductive FetchResult := FetchJson (b : Body) | FetchFailed.

Module Home.

Record State := mkState {
  images : list ImageData;
  loading : bool;
  selectedImage : option ImageData;
  activeTab : Tab
}.

(** [useState([])], [useState(true)], [useState(null)], [useState('all')] *)
Definition init : State := mkState [] true None TabAll.

(** [{ filename, url: `/jpegs/${filename}` }] *)
Definition toImageData (filename : string) : ImageData :=
  mkImageData filename ("/jpegs/" ++ filename).

(** [fetchImages]: [setImages] when [data.images] is present (an array,
    even empty, is truthy), and [setLoading(false)] in [finally]. *)
Definition fetchImages (r : FetchResult) (st : State) : State :=
  let imgs := match r with
              | FetchJson (JsonImages names) => map toImageData names
              | _ => images st
              end in
  mkState imgs false (selectedImage st) (activeTab st).

Definition tabMatches (tab : Tab) (image : ImageData) : bool :=
  match tab with
  | TabAll => true
  | TabHE => startsWith (filename image) "HE"
  | TabPAS => startsWith (filename image) "PAS"
  end.

(** [images.filter(image => activeTab === 'all' || image.filename.startsWith(activeTab))] *)
Definition filteredImages (st : State) : list ImageData :=
  filter (fun image => tabMatches (activeTab st) image = true) (images st).

Definition heCount (st : State) : nat :=
  length (filter (fun img => startsWith (filename img) "HE" = true) (images st)).

Definition pasCount (st : State) : nat :=
  length (filter (fun img => startsWith (filename img) "PAS" = true) (images st)).

Definition setActiveTab (t : Tab) (st : State) : State :=
  mkState (images st) (loading st) (selectedImage st) t.

(** [handleImageSelect] and the viewer's [onImageChange] ([setSelectedImage]). *)
Definition handleImageSelect (image : ImageData) (st : State) : State :=
  mkState (images st) (loading st) (Some image) (activeTab st).

Definition handleCloseViewer (st : State) : State :=
  mkState (images st) (loading st) None (activeTab st).

(** A tab button: the tab it sets, its text, its count, and whether it
    has the active style. *)
Record TabButton := mkTabButton { tabOf : Tab; tabLabel : string; tabCount : nat; tabActive : bool }.

(** What the page renders: ["Loading images..."] while [loading], else the
    header with the ROI count, the three tab buttons, the gallery on the
    tab list, and the viewer while an image is selected. *)
Inductive View :=
| LoadingScreen
| Main (roiCount : nat) (tabs : list TabButton) (galleryImages : list ImageData)
       (viewerProps : option (ImageData * list ImageData)).

Definition render (st : State) : View :=
  if loading st then LoadingScreen
  else Main (length (images st))
    [mkTabButton TabAll "All ROIs" (length (images st)) (bool_decide (activeTab st = TabAll));
     mkTabButton TabHE "H&E ROIs" (heCount st) (bool_decide (activeTab st = TabHE));
     mkTabButton TabPAS "PAS ROIs" (pasCount st) (bool_decide (activeTab st = TabPAS))]
    (filteredImages st)
    (match selectedImage st with Some img => Some (img, filteredImages st) | None => None end).

End Home.

#[export] Instance Home_State_eq_dec : EqDecision Home.State.
Proof. solve_decision. Defined.

(** ** Lemmas on the page *)

Lemma Home_filtered_sub h img : img ∈ Home.filteredImages h -> img ∈ Home.images h.
Proof. unfold Home.filteredImages. rewrite list_elem_of_filter. tauto. Qed.

Lemma startsWith_HE_PAS f : startsWith f "HE" = true -> startsWith f "PAS" = true -> False.
Proof.
  rewrite !startsWith_spec. intros [r1 ->] [r2 Hr].
  change ("HE" ++ r1) with (String "H" ("E" ++ r1)) in Hr.
  change ("PAS" ++ r2) with (String "P" ("AS" ++ r2)) in Hr. discriminate.
Qed.

(** ** Properties of the page *)

(** C22. The tab filter and the counts: [all] shows every image, [HE] and
    [PAS] exactly the images whose file name starts with that prefix, the
    counts on the tabs are the sizes of those lists, and they add up to at
    most the number of images. *)
Theorem tab_filter_counts h :
  Home.filteredImages (Home.setActiveTab TabAll h) = Home.images h /\
  Home.filteredImages (Home.setActiveTab TabHE h) =
    filter (fun img => startsWith (filename img) "HE" = true) (Home.images h) /\
  Home.filteredImages (Home.setActiveTab TabPAS h) =
    filter (fun img => startsWith (filename img) "PAS" = true) (Home.images h) /\
  Home.heCount h = length (Home.filteredImages (Home.setActiveTab TabHE h)) /\
  Home.pasCount h = length (Home.filteredImages (Home.setActiveTab TabPAS h)) /\
  Home.heCount h + Home.pasCount h <= length (Home.images h).
Proof.
  split_and!; try reflexivity.
  - apply filter_all. by apply Forall_true.
  - apply length_filter_disjoint. intros img. apply startsWith_HE_PAS.
Qed.
