(* ===== verification/Client.v ===== *)
(** * The whole client: the page with its gallery and its viewer

    [Module Client] composes [Home] (src/app/page.tsx) with its two
    children, [ImageViewer] and [FullPageViewer], into one state [App]
    (page state, gallery state, the viewer's state while it is mounted)
    and one executable transition function [dispatch]; [reachable] is its
    reflexive-transitive closure from the first render, [reachable_on] the
    same when the listing comes from a given server, [step] with stdpp's
    [rtc] states liveness, and [commitImage] / [runEffects] split an image
    change into React's commit and effect.  The gallery stays mounted
    under the viewer and only CSS decides whether it can be clicked then,
    so [dispatch] allows gallery events while the viewer is open (a
    superset of the real behaviours, which the invariant and refinement
    proofs cover; the liveness proofs use only events a user can
    produce). *)

From S2P Require Import Prelude JsString Uri FileSystem Api Routing Gallery Viewer Page.

Local Open Scope string_scope.

Module Client.

Record App := mkApp {
  home : Home.State;
  gallery : ImageViewer.State;
  viewer : option FullPageViewer.State
}.

Definition init : App := mkApp Home.init ImageViewer.init None.

Inductive Event :=
| Fetched (r : FetchResult)                    (** the mount-time fetch settles *)
| ClickTab (t : Tab)                           (** a tab button *)
| GalleryInput (e : ImageViewer.Event)         (** an input of the gallery *)
| ViewerInput (i : FullPageViewer.Input).      (** an input of the viewer *)

(** [setSelectedImage(img)]: the viewer is mounted fresh when none was
    shown; a mounted viewer keeps its state, and its effect on
    [[image.filename]] resets the load flags when the file name changes. *)
Definition selectImage (img : ImageData) (v : option FullPageViewer.State) (a : App) : App :=
  let v' := match v, Home.selectedImage (home a) with
            | Some st, Some cur =>
                if bool_decide (filename cur = filename img) then st
                else FullPageViewer.resetOnImageChange st
            | _, _ => FullPageViewer.init
            end in
  mkApp (Home.handleImageSelect img (home a)) (gallery a) (Some v').

(** The same image change in React's two phases: [commitImage] is the
    render that commits the new [image] prop with the viewer's previous
    state; [runEffects] is the effect on [[image.filename]], which runs
    after the commit when the file name changed. *)
Definition commitImage (img : ImageData) (v : option FullPageViewer.State) (a : App) : App :=
  let v' := match v, Home.selectedImage (home a) with
            | Some st, Some _ => st
            | _, _ => FullPageViewer.init
            end in
  mkApp (Home.handleImageSelect img (home a)) (gallery a) (Some v').

Definition runEffects (a : App) : App :=
  mkApp (home a) (gallery a) (FullPageViewer.resetOnImageChange <$> viewer a).

(** The page's answer to a callback of the viewer. *)
Definition applyCallback (cb : option FullPageViewer.Callback) (st : FullPageViewer.State)
    (a : App) : App :=
  match cb with
  | None => mkApp (home a) (gallery a) (Some st)
  | Some FullPageViewer.OnClose => mkApp (Home.handleCloseViewer (home a)) (gallery a) None
  | Some (FullPageViewer.OnImageChange (Some img)) => selectImage img (Some st) a
  | Some (FullPageViewer.OnImageChange None) =>
      (* [setSelectedImage(undefined)]: the viewer is no longer rendered *)
      mkApp (Home.handleCloseViewer (home a)) (gallery a) None
  end.

(** One event, or [None] when the event cannot happen in this state (the
    fetch has settled, the page still shows "Loading images...", the
    viewer is closed, or the control is not rendered). *)
Definition dispatch (a : App) (e : Event) : option App :=
  let h := home a in
  match e with
  | Fetched r => if Home.loading h then Some (mkApp (Home.fetchImages r h) (gallery a) (viewer a)) else None
  | ClickTab t => if Home.loading h then None else Some (mkApp (Home.setActiveTab t h) (gallery a) (viewer a))
  | GalleryInput ge =>
      if Home.loading h then None
      else let '(g', sel) := ImageViewer.step (Home.filteredImages h) (gallery a) ge in
           let a' := mkApp h g' (viewer a) in
           match sel with
           | Some img => Some (selectImage img (viewer a) a')
           | None => Some a'
           end
  | ViewerInput i =>
      match Home.selectedImage h, viewer a with
      | Some img, Some st =>
          let imgs := Home.filteredImages h in
          if FullPageViewer.enabled img imgs st i then
            let '(st', cb) := FullPageViewer.react img imgs st i in
            Some (applyCallback cb st' a)
          else None
      | _, _ => None
      end
  end.

Inductive reachable : App -> Prop :=
| reach_init : reachable init
| reach_step a e a' : reachable a -> dispatch a e = Some a' -> reachable a'.

(** One step of the client, whatever the event. *)
Definition step (a a' : App) : Prop := exists e, dispatch a e = Some a'.

Section Served.
Context `{FileSystem F} (fs : F) (cwd : path).

(** [await fetch('/api/images')] and [await response.json()] against the
    server [fs, cwd]: the JSON body it answers, or a rejection. *)
Definition served_fetch (e : Event) : Prop :=
  match e with
  | Fetched (FetchJson b) => b = body (Server.serve fs cwd "/api/images")
  | _ => True
  end.

(** The states reached when the listing comes from that server. *)
Inductive reachable_on : App -> Prop :=
| ron_init : reachable_on init
| ron_step a e a' : reachable_on a -> served_fetch e -> dispatch a e = Some a' -> reachable_on a'.

End Served.

(** A run of events from a state. *)
Fixpoint run (a : App) (es : list Event) : option App :=
  match es with
  | [] => Some a
  | e :: es' => match dispatch a e with Some a' => run a' es' | None => None end
  end.

End Client.

(** ** Lemmas on the client *)

Section ClientLemmas.
Import Client.

Lemma selectImage_viewer img v a :
  exists st, viewer (selectImage img v a) = Some st /\
    (st = FullPageViewer.init \/ v = Some st \/ exists st0, v = Some st0 /\ st = FullPageViewer.resetOnImageChange st0).
Proof.
  unfold selectImage. simpl. destruct v as [st|], (Home.selectedImage (home a)) as [cur|]; eauto.
  case_bool_decide; eauto 10.
Qed.

Lemma selectImage_home img v a :
  home (selectImage img v a) = Home.handleImageSelect img (home a).
Proof. reflexivity. Qed.

Lemma selectImage_opacity img v a :
  (forall st, v = Some st -> FullPageViewer.opacity_ok st) ->
  forall st, viewer (selectImage img v a) = Some st -> FullPageViewer.opacity_ok st.
Proof.
  intros Hv st Hst. destruct (selectImage_viewer img v a) as (st' & Hst' & Hcase).
  rewrite Hst in Hst'. injection Hst' as <-.
  destruct Hcase as [-> | [Hs | (st0 & Hs & ->)]].
  - apply init_opacity.
  - by apply Hv.
  - apply reset_preserves_opacity. by apply Hv.
Qed.

(** A selection with another file name, while the viewer is mounted,
    runs the reset effect on the viewer's state. *)
Lemma selectImage_change img st cur a :
  Home.selectedImage (home a) = Some cur -> filename cur <> filename img ->
  viewer (selectImage img (Some st) a) = Some (FullPageViewer.resetOnImageChange st).
Proof. intros Hs Hf. unfold selectImage. simpl. rewrite Hs. by rewrite bool_decide_eq_false_2. Qed.

(** The page's invariant: the viewer is mounted exactly while an image is
    selected; the selected image is one of the fetched images; nothing is
    selected or fetched while loading; the opacity is a slider value. *)
Definition Inv (a : App) : Prop :=
  (is_Some (viewer a) <-> is_Some (Home.selectedImage (home a))) /\
  (forall img, Home.selectedImage (home a) = Some img -> img ∈ Home.images (home a)) /\
  (Home.loading (home a) = true -> Home.images (home a) = [] /\ Home.selectedImage (home a) = None) /\
  (forall st, viewer a = Some st -> FullPageViewer.opacity_ok st).

Lemma Inv_init : Inv init.
Proof. repeat split; simpl; try done; intros ? [=]. Qed.

Lemma Inv_selectImage img v a :
  img ∈ Home.images (home a) ->
  (forall img', Home.selectedImage (home a) = Some img' -> img' ∈ Home.images (home a)) ->
  (forall st, v = Some st -> FullPageViewer.opacity_ok st) ->
  Home.loading (home a) = false ->
  Inv (selectImage img v a).
Proof.
  intros Himg Hsel Hv Hl. split; [| split; [| split]].
  - destruct (selectImage_viewer img v a) as (st & -> & _). simpl. split; eauto.
  - intros img' [= <-]. done.
  - simpl. congruence.
  - by apply selectImage_opacity.
Qed.

Lemma Inv_dispatch a e a' : Inv a -> dispatch a e = Some a' -> Inv a'.
Proof.
  intros (Hmount & Hsel & Hload & Hop) Hd. destruct e as [r|t|ge|i]; simpl in Hd.
  - destruct (Home.loading (home a)) eqn:Hl; [| done]. injection Hd as <-.
    destruct (Hload eq_refl) as [_ Hnone].
    assert (viewer a = None) as Hv by (destruct (viewer a); [|done]; exfalso;
      assert (is_Some (Home.selectedImage (home a))) as [? Hs] by (apply Hmount; eauto); congruence).
    split_and!; simpl; rewrite ?Hv, ?Hnone; try done; intros; simplify_eq.
  - destruct (Home.loading (home a)) eqn:Hl; [done |]. injection Hd as <-.
    split_and!; simpl; auto; intros; congruence.
  - destruct (Home.loading (home a)) eqn:Hl; [done |].
    destruct (ImageViewer.step _ _ ge) as [g' [img|]] eqn:Hs; injection Hd as <-.
    + apply ImageViewer_step_select in Hs as (_ & Himg & _).
      apply Inv_selectImage; [by apply Home_filtered_sub | exact Hsel | | exact Hl].
      intros st Hst. first [discriminate | by apply Hop].
    + split_and!; simpl; auto; intros; congruence.
  - destruct (Home.selectedImage (home a)) as [img|] eqn:Hi; [| done].
    destruct (viewer a) as [st|] eqn:Hv; [| done].
    destruct (FullPageViewer.enabled _ _ _ _); [| done].
    destruct (FullPageViewer.react _ _ st i) as [st' cb] eqn:Hr. injection Hd as <-.
    assert (FullPageViewer.opacity_ok st') as Hst'.
    { change st' with (fst (st', cb)). rewrite <- Hr. apply react_preserves_opacity. by apply Hop. }
    assert (Home.loading (home a) = false) as Hl.
    { destruct (Home.loading (home a)) eqn:E; [| done]. destruct (Hload eq_refl). congruence. }
    destruct cb as [[|oimg]|]; simpl.
    + split_and!; simpl; try done; intros; simplify_eq; congruence.
    + pose proof (react_image_change img (Home.filteredImages (home a)) st i oimg) as Hc.
      rewrite Hr in Hc. destruct (Hc eq_refl) as [_ (img' & -> & Himg)].
      apply Inv_selectImage; [by apply Home_filtered_sub | intros; apply Hsel; congruence | intros ? [= <-]; done | exact Hl].
    + split_and!; simpl; [split; intros; by eexists | intros; apply Hsel; congruence | intros; congruence | intros ? [= <-]; done].
Qed.

Lemma run_reachable a es a' : Client.reachable a -> Client.run a es = Some a' -> Client.reachable a'.
Proof.
  revert a. induction es as [|e es IH]; intros a Ha Hr; simpl in Hr; [congruence |].
  destruct (Client.dispatch a e) as [a1|] eqn:Hd; [| done].
  eapply IH; [eapply Client.reach_step; eauto | done].
Qed.

Lemma run_reachable_on `{FileSystem F} (fs : F) cwd a es a' :
  reachable_on fs cwd a -> Forall (served_fetch fs cwd) es -> run a es = Some a' ->
  reachable_on fs cwd a'.
Proof.
  intros Ha Hes. revert a Ha. induction Hes as [|e es He Hes IH]; intros a Ha Hr; simpl in Hr; [congruence |].
  destruct (dispatch a e) as [a1|] eqn:Hd; [| done].
  eapply IH; [eapply ron_step; eauto | done].
Qed.

Lemma selectImage_allowed img v a :
  (v = None \/ v = viewer a) ->
  ViewerSpec.allowed (ViewerSpec.phase_of (Home.selectedImage (home a)) v)
    (ViewerSpec.phase_of (Home.selectedImage (home (selectImage img v a))) (viewer (selectImage img v a))).
Proof.
  intros _. unfold selectImage. simpl.
  destruct v as [st|]; [| destruct (Home.selectedImage (home a)); right; constructor].
  destruct (Home.selectedImage (home a)) as [cur|]; [| right; constructor].
  case_bool_decide as Hf.
  - left. simpl. by rewrite Hf.
  - right. by apply reset_navigate.
Qed.

Lemma Inv_reachable a : reachable a -> Inv a.
Proof. induction 1; [apply Inv_init | by eapply Inv_dispatch]. Qed.

Lemma reachable_on_reachable `{FileSystem F} (fs : F) cwd a : reachable_on fs cwd a -> reachable a.
Proof. induction 1; econstructor; eauto. Qed.

Lemma applyCallback_images cb st a :
  Home.images (home (applyCallback cb st a)) = Home.images (home a).
Proof. by destruct cb as [[|[img|]]|]. Qed.

(** Only the fetch changes the page's images. *)
Lemma dispatch_images a e a' :
  dispatch a e = Some a' ->
  Home.images (home a') = Home.images (home a) \/
  exists names, e = Fetched (FetchJson (JsonImages names)) /\
    Home.images (home a') = map Home.toImageData names.
Proof.
  intros Hd. destruct e as [r|t|ge|i]; simpl in Hd.
  - destruct (Home.loading (home a)); [| done]. injection Hd as <-. simpl.
    destruct r as [[names| | | | |]|]; eauto.
  - destruct (Home.loading (home a)); [done |]. injection Hd as <-. by left.
  - destruct (Home.loading (home a)); [done |].
    destruct (ImageViewer.step _ _ ge) as [g' [img|]]; injection Hd as <-; by left.
  - left. destruct (Home.selectedImage (home a)), (viewer a); try done.
    destruct (FullPageViewer.enabled _ _ _ _); [| done].
    destruct (FullPageViewer.react _ _ _ i). injection Hd as <-. apply applyCallback_images.
Qed.

(** The records of the page are well formed: a plain [.jpg] name with
    its [/jpegs/] url, no name twice. *)
Definition WfImages (imgs : list ImageData) : Prop :=
  Forall (fun img => url img = "/jpegs/" ++ filename img /\ plain_segment (filename img) = true /\
                     endsWith (filename img) ".jpg" = true) imgs /\
  NoDup (filename <$> imgs).

(** The records come from a listing: each is [toImageData] of its plain
    [.jpg] name, no name twice. *)
Definition Listed (imgs : list ImageData) : Prop :=
  Forall (fun img => img = Home.toImageData (filename img) /\ plain_segment (filename img) = true /\
                     endsWith (filename img) ".jpg" = true) imgs /\
  NoDup (filename <$> imgs).

Lemma Listed_sublist l1 l2 : l1 `sublist_of` l2 -> Listed l2 -> Listed l1.
Proof.
  intros Hs [Hf Hnd]. split; [by eapply Forall_sublist_of | by eapply NoDup_fmap_sublist].
Qed.

Lemma Listed_listing names :
  NoDup names -> Forall (fun n => plain_segment n = true /\ endsWith n ".jpg" = true) names ->
  Listed (map Home.toImageData names).
Proof.
  intros Hnd Hf. split.
  - apply Forall_map. eapply Forall_impl; [exact Hf |]. intros n Hn. by split.
  - assert (filename <$> map Home.toImageData names = names) as -> by
      (clear; induction names as [|n names IH]; [done |]; simpl; by f_equal).
    done.
Qed.

Lemma Listed_dispatch `{FileSystem F} (fs : F) cwd a e a' :
  Listed (Home.images (home a)) -> served_fetch fs cwd e -> dispatch a e = Some a' ->
  Listed (Home.images (home a')).
Proof.
  intros Hwf Hs Hd. destruct (dispatch_images _ _ _ Hd) as [-> | (names & -> & ->)]; [done |].
  simpl in Hs. symmetry in Hs.
  apply serve_api_images, ImagesRoute_GET_ok_names in Hs as [Hnd Hf]. by apply Listed_listing.
Qed.

Lemma Listed_reachable_on `{FileSystem F} (fs : F) cwd a :
  reachable_on fs cwd a -> Listed (Home.images (home a)).
Proof. induction 1 as [|a e a' _ IH Hs Hd]; [split; constructor | by eapply Listed_dispatch]. Qed.

(** The viewer can always be closed: [Escape] when it is open. *)
Lemma close_viewer a :
  Inv a -> exists a1, rtc step a a1 /\ Home.filteredImages (home a1) = Home.filteredImages (home a) /\
    Home.loading (home a1) = Home.loading (home a) /\ viewer a1 = None.
Proof.
  intros [Hmount _]. destruct (viewer a) as [st|] eqn:Hv; [| by exists a].
  destruct (Home.selectedImage (home a)) as [cur|] eqn:Hs;
    [| exfalso; destruct (proj1 Hmount (ltac:(eauto))); congruence].
  exists (mkApp (Home.handleCloseViewer (home a)) (gallery a) None). split; [| done].
  apply rtc_once. exists (ViewerInput (FullPageViewer.KeyDown "Escape")). simpl. by rewrite Hs, Hv.
Qed.

(** The atomic [selectImage] is the commit followed by the effect when
    the file name changes, and the commit alone otherwise. *)
Lemma selectImage_phases img st cur a :
  Home.selectedImage (home a) = Some cur ->
  selectImage img (Some st) a =
  if bool_decide (filename cur = filename img) then commitImage img (Some st) a
  else runEffects (commitImage img (Some st) a).
Proof. intros Hs. unfold selectImage, commitImage, runEffects. rewrite Hs. by case_bool_decide. Qed.

End ClientLemmas.

(** ** Properties of the whole client *)

Section ClientProps.
Import Client.

(** C1. Every state the client can reach satisfies the page invariant:
    the viewer is mounted exactly while an image is selected, the selected
    image is one of the fetched images, nothing is fetched or selected
    while "Loading images..." is shown, and the mask opacity is one of the
    slider's values. *)
Theorem reachable_invariant a : reachable a -> Inv a.
Proof. apply Inv_reachable. Qed.

(** C2. The client refines the spec's viewer machine: every event moves
    the viewer's phase (closed, no mask, mask loading, mask shown, mask
    error) along an allowed transition or leaves it unchanged. *)
Theorem dispatch_refines_spec a e a' :
  dispatch a e = Some a' ->
  ViewerSpec.allowed (ViewerSpec.phase_of (Home.selectedImage (home a)) (viewer a))
    (ViewerSpec.phase_of (Home.selectedImage (home a')) (viewer a')).
Proof.
  intros Hd. destruct e as [r|t|ge|i]; simpl in Hd.
  - destruct (Home.loading (home a)); [| done]. injection Hd as <-. by left.
  - destruct (Home.loading (home a)); [done |]. injection Hd as <-. by left.
  - destruct (Home.loading (home a)); [done |].
    destruct (ImageViewer.step _ _ ge) as [g' [img|]]; injection Hd as <-; [| by left].
    by apply (selectImage_allowed img (viewer a) (mkApp (home a) g' (viewer a))); right.
  - destruct (Home.selectedImage (home a)) as [img|] eqn:Hi; [| done].
    destruct (viewer a) as [st|] eqn:Hv; [| done].
    destruct (FullPageViewer.enabled _ _ _ _); [| done].
    pose proof (react_allowed (filename img) img (Home.filteredImages (home a)) st i) as Hall.
    pose proof (react_image_change img (Home.filteredImages (home a)) st i) as Hch.
    destruct (FullPageViewer.react _ _ st i) as [st' cb]. injection Hd as <-.
    destruct cb as [[|oimg]|]; simpl in *; rewrite ?Hi.
    + right. constructor.
    + destruct (Hch oimg eq_refl) as [-> (img' & -> & _)].
      pose proof (selectImage_allowed img' (Some st) a) as Hs. rewrite Hi, Hv in Hs. by apply Hs; right.
    + exact Hall.
Qed.

(** C9. When the listing comes from the server, every image record the
    page holds (and hands to the gallery and the viewer) is well formed:
    its name is a plain [.jpg] directory entry, its url is
    [/jpegs/<name>], and no name occurs twice. *)
Theorem served_images_wellformed `{FileSystem F} (fs : F) (cwd : path) a :
  reachable_on fs cwd a ->
  WfImages (Home.images (home a)) /\ WfImages (Home.filteredImages (home a)).
Proof.
  intros Hr. pose proof (Listed_reachable_on fs cwd a Hr) as Hl.
  assert (forall l, Listed l -> WfImages l) as Hwf.
  { intros l [Hf Hnd]. split; [| done]. eapply Forall_impl; [exact Hf |].
    intros img (Himg & Hp & He). split_and!; [| done | done]. rewrite Himg. reflexivity. }
  split; apply Hwf; [done |]. eapply Listed_sublist; [apply sublist_filter | exact Hl].
Qed.

(** C6. After the mount-time fetch of a successful listing the page holds
    exactly the listed names, in order, with [url = /jpegs/<name>], stops
    loading, and every url it holds for a URL-safe name (no [%], [?] or
    [#]) is served by the server with the bytes of the file the listing
    saw in its own directory ([ImagesRoute.datasetPath]). *)
Theorem fetched_images_served `{FileSystem F} (fs : F) (cwd : path) names a :
  ImagesRoute.GET fs cwd = mkResponse 200 (JsonImages names) ->
  dispatch init (Fetched (FetchJson (body (ImagesRoute.GET fs cwd)))) = Some a ->
  map filename (Home.images (home a)) = names /\ Home.loading (home a) = false /\
  (forall img b, img ∈ Home.images (home a) -> url_safe (filename img) = true ->
     readFileSync fs (ImagesRoute.datasetPath cwd ++ [filename img])%list = Some b ->
     Server.serve fs cwd (url img) = mkResponse 200 (StaticFile b)).
Proof.
  intros Hget Hd. rewrite Hget in Hd. simpl in Hd. injection Hd as <-. simpl.
  split; [rewrite map_map; apply map_id | split; [done |]].
  intros img b Himg Hu Hb. apply list_elem_of_fmap in Himg as (n & -> & Hn). simpl in *.
  pose proof (ImagesRoute_names_plain _ _ _ Hget) as Hp. rewrite Forall_forall in Hp.
  rewrite ImagesRoute_datasetPath_eq, <- app_assoc in Hb.
  by apply serve_public_jpeg; [apply Hp | |].
Qed.

(** C32. When the listing fails (the route's 500 body has no [images]) or
    the fetch rejects, the page stops loading with no image, and the
    gallery shows its empty state; there is no retry. *)
Theorem failed_fetch_shows_nothing r a :
  (r = FetchFailed \/ exists e, r = FetchJson (JsonError e)) ->
  dispatch init (Fetched r) = Some a ->
  Home.images (home a) = [] /\ Home.loading (home a) = false /\
  ImageViewer.showsEmptyState (Home.filteredImages (home a)) (gallery a) = true /\
  (forall r', dispatch a (Fetched r') = None).
Proof.
  intros [-> | [e ->]] Hd; simpl in Hd; injection Hd as <-; split_and!; done.
Qed.

(** C33. A newly selected image always comes from the page's current tab
    list: the gallery only offers images of that list, and the viewer
    only navigates within it. *)
Theorem selection_from_tab_list a e a' img :
  dispatch a e = Some a' ->
  Home.selectedImage (home a') = Some img -> Home.selectedImage (home a) <> Some img ->
  img ∈ Home.filteredImages (home a).
Proof.
  intros Hd Hs Hne. destruct e as [r|t|ge|i]; simpl in Hd.
  - destruct (Home.loading (home a)); [| done]. injection Hd as <-. done.
  - destruct (Home.loading (home a)); [done |]. injection Hd as <-. done.
  - destruct (Home.loading (home a)); [done |].
    destruct (ImageViewer.step _ _ ge) as [g' [img'|]] eqn:Hst; injection Hd as <-; [| done].
    simpl in Hs. injection Hs as ->. by apply ImageViewer_step_select in Hst as (_ & ? & _).
  - destruct (Home.selectedImage (home a)) as [cur|] eqn:Hi; [| done].
    destruct (viewer a) as [st|]; [| done].
    destruct (FullPageViewer.enabled _ _ _ _); [| done].
    pose proof (react_image_change cur (Home.filteredImages (home a)) st i) as Hch.
    destruct (FullPageViewer.react _ _ st i) as [st' cb]. injection Hd as <-.
    destruct cb as [[|oimg]|]; simpl in *; try congruence.
    destruct (Hch oimg eq_refl) as [_ (img' & -> & Himg)]. simpl in Hs. by injection Hs as ->.
Qed.

(** C28. Navigation walks the page's tab list, not the gallery's search
    result: from every state with the viewer open, [ArrowRight] selects
    the element after the current image in the tab list and leaves the
    gallery, its search term included, as it is; so it reaches images the
    search hides. *)
Theorem navigation_leaves_search_results a img st img' :
  Home.selectedImage (home a) = Some img -> viewer a = Some st ->
  (Home.filteredImages (home a)).[FullPageViewer.currentIndex img (Home.filteredImages (home a)) + 1] = Some img' ->
  exists a', dispatch a (ViewerInput (FullPageViewer.KeyDown "ArrowRight")) = Some a' /\
    Home.selectedImage (home a') = Some img' /\ gallery a' = gallery a.
Proof.
  intros Hs Hv Hi. pose proof (currentIndex_range img (Home.filteredImages (home a))).
  assert (FullPageViewer.goToNext img (Home.filteredImages (home a)) =
          Some (FullPageViewer.OnImageChange (Some img'))) as Hn.
  { apply goToNext_spec. split; [| done].
    rewrite js_at_nonneg in Hi by lia. apply lookup_lt_Some in Hi. lia. }
  simpl. rewrite Hs, Hv. simpl.
  unfold FullPageViewer.handleKeyDown, FullPageViewer.listener. simpl.
  change (FullPageViewer.nextAt _ _) with (FullPageViewer.goToNext img (Home.filteredImages (home a))).
  rewrite Hn. by eexists.
Qed.

(** C20. An image change resets the open viewer's load flags and keeps
    its overlay toggle and opacity: whatever event moves the selection to
    another file (an arrow key or button, a gallery click), the viewer
    stays mounted with [imageLoaded], [maskLoaded] and [maskError] false
    and [showMask] and [maskOpacity] as they were. *)
Theorem image_change_resets_flags a e a' img img' st :
  Home.selectedImage (home a) = Some img -> viewer a = Some st ->
  dispatch a e = Some a' -> Home.selectedImage (home a') = Some img' -> filename img <> filename img' ->
  viewer a' = Some (FullPageViewer.mkState (FullPageViewer.showMask st) false false false
                                           (FullPageViewer.maskOpacity st)).
Proof.
  intros Hs Hv Hd Hs' Hf. destruct e as [r|t|ge|i]; simpl in Hd.
  - destruct (Home.loading (home a)); [| done]. injection Hd as <-. simpl in Hs'. congruence.
  - destruct (Home.loading (home a)); [done |]. injection Hd as <-. simpl in Hs'. congruence.
  - destruct (Home.loading (home a)); [done |]. rewrite Hv in Hd.
    destruct (ImageViewer.step _ _ ge) as [g' [sel|]]; injection Hd as <-; simpl in Hs'; [| congruence].
    injection Hs' as Heq. subst. rewrite (selectImage_change _ st img); [reflexivity | exact Hs | done].
  - rewrite Hs, Hv in Hd. destruct (FullPageViewer.enabled _ _ _ _); [| done].
    pose proof (react_image_change img (Home.filteredImages (home a)) st i) as Hch.
    destruct (FullPageViewer.react _ _ st i) as [st1 cb]. injection Hd as <-.
    destruct cb as [[|[x|]]|]; cbn [applyCallback fst snd] in *; try (simpl in Hs'; congruence).
    destruct (Hch (Some x) eq_refl) as [-> _]. rewrite selectImage_home in Hs'. injection Hs' as Heq. subst.
    rewrite (selectImage_change _ st img); [reflexivity | exact Hs | done].
Qed.


(** C14. What the open viewer asks the server for is what it
    shows: its main image [src] is served as the static file of the
    listed name, its mask [src] reaches the mask route for that name
    (unless a public file shadows it), and its header shows the label the
    gallery gives the same file. *)
Theorem served_viewer_requests `{FileSystem F} (fs : F) (cwd : path) a img st :
  reachable_on fs cwd a -> Home.selectedImage (home a) = Some img -> viewer a = Some st ->
  url_safe (filename img) = true ->
  let v := FullPageViewer.render img (Home.filteredImages (home a)) st in
  (forall b, readFileSync fs (cwd ++ ["public"; "jpegs"; filename img])%list = Some b ->
     Server.serve fs cwd (FullPageViewer.mainSrc v) = mkResponse 200 (StaticFile b)) /\
  (forall src, FullPageViewer.maskSrc v = Some src ->
     Server.public_file fs cwd ["masks"; filename img] = None ->
     Server.serve fs cwd src = MaskRoute.GET fs cwd (filename img)) /\
  FullPageViewer.title v = ImageViewer.getImageLabel (filename img).
Proof.
  intros Hr Hs Hv Hu v. destruct (Inv_reachable _ (reachable_on_reachable _ _ _ Hr)) as (_ & Hsel & _).
  destruct (Listed_reachable_on fs cwd a Hr) as [Hl _].
  rewrite Forall_forall in Hl. destruct (Hl img (Hsel img Hs)) as (Himg & Hplain & _).
  assert (url img = "/jpegs/" ++ filename img) as Hurl by (rewrite Himg; reflexivity).
  split_and!.
  - intros b Hb. simpl. rewrite Hurl. by apply serve_public_jpeg.
  - intros src Hsrc Hpub. simpl in Hsrc.
    destruct (FullPageViewer.overlay st); injection Hsrc as <- || done. by apply serve_mask_url.
  - reflexivity.
Qed.

(** C11. The open viewer's loading states are never stuck: the main
    image's [onLoad] can always fire and clears ["Loading..."], and while
    the mask is loading both its [onLoad] and its [onError] can fire,
    leading to the shown and the failed phase of the same file. *)
Theorem loading_indicators_settle a img st :
  Home.selectedImage (home a) = Some img -> viewer a = Some st ->
  (exists st', dispatch a (ViewerInput FullPageViewer.ImageLoad) = Some (mkApp (home a) (gallery a) (Some st')) /\
     FullPageViewer.loadingIndicator (FullPageViewer.render img (Home.filteredImages (home a)) st') = false /\
     ViewerSpec.mask_phase st' = ViewerSpec.mask_phase st) /\
  (ViewerSpec.mask_phase st = ViewerSpec.MaskLoading ->
   (exists a', dispatch a (ViewerInput FullPageViewer.MaskLoad) = Some a' /\
      ViewerSpec.phase_of (Home.selectedImage (home a')) (viewer a') =
        ViewerSpec.Open (filename img) ViewerSpec.MaskShown) /\
   (exists a', dispatch a (ViewerInput FullPageViewer.MaskFail) = Some a' /\
      ViewerSpec.phase_of (Home.selectedImage (home a')) (viewer a') =
        ViewerSpec.Open (filename img) ViewerSpec.MaskError)).
Proof.
  intros Hs Hv. simpl. rewrite Hs, Hv.
  destruct st as [[] ? [] [] ?]; simpl; split; try (eexists; split_and!; reflexivity);
    intros Hm; try discriminate Hm; split; eexists; split; try reflexivity; simpl; by rewrite Hs.
Qed.

(** C12. Once the images are loaded, every image of the current tab
    list can be opened from every reachable state by real user events:
    [Escape] if the viewer is open, clearing the search box, clicking the
    image's tile; the viewer is then mounted on it. *)
Theorem any_listed_image_opens a img :
  reachable a -> Home.loading (home a) = false -> img ∈ Home.filteredImages (home a) ->
  exists a', rtc step a a' /\ Home.selectedImage (home a') = Some img /\ is_Some (viewer a').
Proof.
  intros Hr Hl (k & Hk)%list_elem_of_lookup.
  destruct (close_viewer a (Inv_reachable a Hr)) as (a1 & Hsteps & Hf & Hl1 & Hv1).
  rewrite <- Hf in Hk. rewrite Hl in Hl1.
  set (g := ImageViewer.mkState "" (ImageViewer.viewMode (gallery a1))).
  exists (selectImage img None (mkApp (home a1) g None)). split; [| by split; [| eexists]].
  etrans; [exact Hsteps |].
  eapply rtc_l; [exists (GalleryInput (ImageViewer.SetSearchTerm "")); simpl; by rewrite Hl1, Hv1 |].
  apply rtc_once. exists (GalleryInput (ImageViewer.ClickItem k)). simpl. rewrite Hl1.
  simpl. by rewrite filteredImages_nil_term, Hk.
Qed.

(** C16. What the page renders matches the client's state in every
    reachable state: ["Loading images..."] exactly while loading;
    otherwise the ROI count, exactly one active tab, the gallery on the
    tab list, and the viewer on the selected image exactly while it is
    mounted. *)
Theorem render_reflects_client a :
  reachable a ->
  (Home.render (home a) = Home.LoadingScreen <-> Home.loading (home a) = true) /\
  (forall n tabs gimgs vp, Home.render (home a) = Home.Main n tabs gimgs vp ->
     n = length (Home.images (home a)) /\
     length (filter (fun t => Home.tabActive t = true) tabs) = 1%nat /\
     gimgs = Home.filteredImages (home a) /\
     (forall img, vp = Some (img, gimgs) <-> Home.selectedImage (home a) = Some img) /\
     (is_Some vp <-> is_Some (viewer a))).
Proof.
  intros Hr. destruct (Inv_reachable a Hr) as (Hmount & _). unfold Home.render.
  destruct (Home.loading (home a)); split; try done.
  intros n tabs gimgs vp [= <- <- <- <-]. split_and!; [done | | done | |].
  - by destruct (Home.activeTab (home a)).
  - intros img. destruct (Home.selectedImage (home a)); split; congruence.
  - rewrite Hmount. destruct (Home.selectedImage (home a)); split; intros [? ?]; by eauto.
Qed.

(** C17. The reset of an image change must run before the new image's
    [load] event.  Changing from a loaded image to another file, the
    commit renders the new [src] with the previous flags (no
    ["Loading..."]); the effect then clears them, and the [load] that
    follows shows the image.  Delivered the other way round, [load] then
    the effect, the flags end cleared and ["Loading..."] stays over the
    loaded image. *)
Theorem image_change_effect_order a cur img st :
  Home.selectedImage (home a) = Some cur -> viewer a = Some st ->
  filename cur <> filename img -> FullPageViewer.imageLoaded st = true ->
  let imgs := Home.filteredImages (home a) in
  let a1 := commitImage img (Some st) a in
  selectImage img (Some st) a = runEffects a1 /\
  viewer a1 = Some st /\
  FullPageViewer.loadingIndicator (FullPageViewer.render img imgs st) = false /\
  (exists a2 st2, dispatch (runEffects a1) (ViewerInput FullPageViewer.ImageLoad) = Some a2 /\
     viewer a2 = Some st2 /\ FullPageViewer.loadingIndicator (FullPageViewer.render img imgs st2) = false) /\
  (exists a2 st2, dispatch a1 (ViewerInput FullPageViewer.ImageLoad) = Some a2 /\
     viewer (runEffects a2) = Some st2 /\
     FullPageViewer.loadingIndicator (FullPageViewer.render img imgs st2) = true).
Proof.
  intros Hs Hv Hf Hl imgs a1.
  rewrite (selectImage_phases img st cur a Hs), bool_decide_eq_false_2 by done.
  subst a1 imgs. unfold commitImage, runEffects, dispatch. rewrite Hs. simpl.
  destruct st as [? [] ? ? ?]; simpl in *; [| discriminate].
  split_and!; try reflexivity; do 2 eexists; split_and!; reflexivity.
Qed.

(** C19. The browser may deliver the main image's [load] at any moment
    while the viewer stays on the image: it commutes with every input of
    the open viewer that calls nothing back (the mask toggle by button or
    by [m]/[M], the slider, the mask's [load] and [error], the keys the
    switch ignores).  Both orders are accepted or refused together and end
    in the same state, so no order of these deliveries is lost. *)
Theorem image_load_commutes a inp :
  FullPageViewer.local_input inp = true ->
  run a [ViewerInput FullPageViewer.ImageLoad; ViewerInput inp] =
  run a [ViewerInput inp; ViewerInput FullPageViewer.ImageLoad].
Proof.
  intros Hl. simpl.
  destruct (Home.selectedImage (home a)) as [img|] eqn:Hs, (viewer a) as [st|] eqn:Hv; try done.
  destruct (react_local_image_load img (Home.filteredImages (home a)) st inp Hl) as [Hcb Hc].
  pose proof (enabled_image_load img (Home.filteredImages (home a)) st inp) as He.
  simpl in Hc, He |- *. rewrite Hs, He, Hc.
  destruct (FullPageViewer.enabled _ _ st inp); [| done].
  destruct (FullPageViewer.react _ _ st inp) as [st1 cb] eqn:Hr. simpl in Hcb |- *. subst cb.
  simpl. rewrite Hs. reflexivity.
Qed.

End ClientProps.

(** ** Witnesses *)

Definition demo_events : list Client.Event :=
  [Client.Fetched (FetchJson (JsonImages ["HE_a.jpg"; "HE_b.jpg"; "PAS_c.jpg"]));
   Client.GalleryInput (ImageViewer.ClickItem 0);
   Client.ViewerInput (FullPageViewer.KeyDown "m")].

Definition demo_app : Client.App := default Client.init (Client.run Client.init demo_events).

Definition demo_app_next : Client.App :=
  default Client.init (Client.dispatch demo_app (Client.ViewerInput (FullPageViewer.KeyDown "ArrowRight"))).

Lemma reachable_invariant_witness : Inv demo_app.
Proof.
  apply reachable_invariant.
  apply (run_reachable Client.init demo_events); [constructor | reflexivity].
Defined.

Lemma dispatch_refines_spec_witness :
  ViewerSpec.allowed (ViewerSpec.phase_of (Home.selectedImage (Client.home demo_app)) (Client.viewer demo_app))
    (ViewerSpec.phase_of (Home.selectedImage (Client.home demo_app_next)) (Client.viewer demo_app_next)).
Proof.
  apply (dispatch_refines_spec demo_app (Client.ViewerInput (FullPageViewer.KeyDown "ArrowRight"))).
  reflexivity.
Defined.

Definition demo_fetched : Client.App :=
  Client.mkApp (Home.mkState (map Home.toImageData ["HE_1.jpg"; "PAS_2.jpg"]) false None TabAll)
    ImageViewer.init None.

Lemma fetched_images_served_witness :
  map filename (Home.images (Client.home demo_fetched)) = ["HE_1.jpg"; "PAS_2.jpg"] /\
  Home.loading (Client.home demo_fetched) = false /\
  (forall img b, img ∈ Home.images (Client.home demo_fetched) -> url_safe (filename img) = true ->
     readFileSync demo_fs (ImagesRoute.datasetPath demo_cwd ++ [filename img])%list = Some b ->
     Server.serve demo_fs demo_cwd (url img) = mkResponse 200 (StaticFile b)).
Proof. apply (fetched_images_served demo_fs demo_cwd); reflexivity. Defined.

Lemma failed_fetch_shows_nothing_witness :
  let a := Client.mkApp (Home.mkState [] false None TabAll) ImageViewer.init None in
  Home.images (Client.home a) = [] /\ Home.loading (Client.home a) = false /\
  ImageViewer.showsEmptyState (Home.filteredImages (Client.home a)) (Client.gallery a) = true /\
  (forall r', Client.dispatch a (Client.Fetched r') = None).
Proof. apply (failed_fetch_shows_nothing FetchFailed); [by left | reflexivity]. Defined.

Lemma selection_from_tab_list_witness :
  mkImageData "HE_b.jpg" ("/jpegs/" ++ "HE_b.jpg") ∈ Home.filteredImages (Client.home demo_app).
Proof.
  apply (selection_from_tab_list demo_app (Client.ViewerInput (FullPageViewer.KeyDown "ArrowRight"))
           demo_app_next); [reflexivity | reflexivity | vm_compute; congruence].
Defined.

Lemma image_change_resets_flags_witness :
  Client.viewer demo_app_next = Some (FullPageViewer.mkState true false false false 6).
Proof.
  apply (image_change_resets_flags demo_app (Client.ViewerInput (FullPageViewer.KeyDown "ArrowRight"))
           demo_app_next (Home.toImageData "HE_a.jpg") (Home.toImageData "HE_b.jpg")
           (FullPageViewer.mkState true false false false 6)); [reflexivity.. | by vm_compute].
Defined.

Definition demo_searched : Client.App :=
  default Client.init (Client.run Client.init
    [Client.Fetched (FetchJson (JsonImages ["HE_a.jpg"; "HE_b.jpg"]));
     Client.GalleryInput (ImageViewer.SetSearchTerm "he_a");
     Client.GalleryInput (ImageViewer.ClickItem 0)]).

Lemma navigation_leaves_search_results_witness :
  (exists a', Client.dispatch demo_searched (Client.ViewerInput (FullPageViewer.KeyDown "ArrowRight")) = Some a' /\
     Home.selectedImage (Client.home a') = Some (Home.toImageData "HE_b.jpg") /\
     Client.gallery a' = Client.gallery demo_searched) /\
  Home.toImageData "HE_b.jpg" ∉
    ImageViewer.filteredImages (Home.filteredImages (Client.home demo_searched))
                               (ImageViewer.searchTerm (Client.gallery demo_searched)).
Proof.
  split.
  - apply (navigation_leaves_search_results demo_searched (Home.toImageData "HE_a.jpg") FullPageViewer.init);
      reflexivity.
  - rewrite list_elem_of_In. vm_compute. intros [H | []]. discriminate H.
Defined.

Definition demo_served_events : list Client.Event :=
  [Client.Fetched (FetchJson (JsonImages ["HE_1.jpg"; "PAS_2.jpg"]));
   Client.GalleryInput (ImageViewer.ClickItem 0)].

Definition demo_open : Client.App := default Client.init (Client.run Client.init demo_served_events).

Lemma served_images_wellformed_witness :
  WfImages (Home.images (Client.home demo_open)) /\ WfImages (Home.filteredImages (Client.home demo_open)).
Proof.
  apply (served_images_wellformed demo_fs demo_cwd).
  apply (run_reachable_on demo_fs demo_cwd Client.init demo_served_events);
    [constructor | repeat constructor | reflexivity].
Defined.

Lemma served_viewer_requests_witness :
  let v := FullPageViewer.render (Home.toImageData "HE_1.jpg") (Home.filteredImages (Client.home demo_open))
             FullPageViewer.init in
  (forall b, readFileSync demo_fs (demo_cwd ++ ["public"; "jpegs"; "HE_1.jpg"])%list = Some b ->
     Server.serve demo_fs demo_cwd (FullPageViewer.mainSrc v) = mkResponse 200 (StaticFile b)) /\
  (forall src, FullPageViewer.maskSrc v = Some src ->
     Server.public_file demo_fs demo_cwd ["masks"; "HE_1.jpg"] = None ->
     Server.serve demo_fs demo_cwd src = MaskRoute.GET demo_fs demo_cwd "HE_1.jpg") /\
  FullPageViewer.title v = ImageViewer.getImageLabel "HE_1.jpg".
Proof.
  apply (served_viewer_requests demo_fs demo_cwd demo_open (Home.toImageData "HE_1.jpg") FullPageViewer.init);
    [| reflexivity | reflexivity | reflexivity].
  apply (run_reachable_on demo_fs demo_cwd Client.init demo_served_events);
    [constructor | repeat constructor | reflexivity].
Defined.

Lemma loading_indicators_settle_witness :
  (exists st', Client.dispatch demo_open (Client.ViewerInput FullPageViewer.ImageLoad) =
       Some (Client.mkApp (Client.home demo_open) (Client.gallery demo_open) (Some st')) /\
     FullPageViewer.loadingIndicator
       (FullPageViewer.render (Home.toImageData "HE_1.jpg") (Home.filteredImages (Client.home demo_open)) st') = false /\
     ViewerSpec.mask_phase st' = ViewerSpec.mask_phase FullPageViewer.init) /\
  (ViewerSpec.mask_phase FullPageViewer.init = ViewerSpec.MaskLoading ->
   (exists a', Client.dispatch demo_open (Client.ViewerInput FullPageViewer.MaskLoad) = Some a' /\
      ViewerSpec.phase_of (Home.selectedImage (Client.home a')) (Client.viewer a') =
        ViewerSpec.Open "HE_1.jpg" ViewerSpec.MaskShown) /\
   (exists a', Client.dispatch demo_open (Client.ViewerInput FullPageViewer.MaskFail) = Some a' /\
      ViewerSpec.phase_of (Home.selectedImage (Client.home a')) (Client.viewer a') =
        ViewerSpec.Open "HE_1.jpg" ViewerSpec.MaskError)).
Proof.
  apply (loading_indicators_settle demo_open (Home.toImageData "HE_1.jpg") FullPageViewer.init); reflexivity.
Defined.

Lemma any_listed_image_opens_witness :
  exists a', rtc Client.step demo_open a' /\
    Home.selectedImage (Client.home a') = Some (Home.toImageData "PAS_2.jpg") /\ is_Some (Client.viewer a').
Proof.
  apply any_listed_image_opens.
  - apply (run_reachable Client.init demo_served_events); [constructor | reflexivity].
  - reflexivity.
  - right. left.
Defined.

Lemma render_reflects_client_witness :
  (Home.render (Client.home demo_app) = Home.LoadingScreen <-> Home.loading (Client.home demo_app) = true) /\
  (forall n tabs gimgs vp, Home.render (Client.home demo_app) = Home.Main n tabs gimgs vp ->
     n = length (Home.images (Client.home demo_app)) /\
     length (filter (fun t => Home.tabActive t = true) tabs) = 1%nat /\
     gimgs = Home.filteredImages (Client.home demo_app) /\
     (forall img, vp = Some (img, gimgs) <-> Home.selectedImage (Client.home demo_app) = Some img) /\
     (is_Some vp <-> is_Some (Client.viewer demo_app))).
Proof.
  apply render_reflects_client.
  apply (run_reachable Client.init demo_events); [constructor | reflexivity].
Defined.

Definition demo_loaded : Client.App :=
  default Client.init (Client.dispatch demo_open (Client.ViewerInput FullPageViewer.ImageLoad)).

Definition demo_loaded_state : FullPageViewer.State := FullPageViewer.mkState false true false false 6.

Lemma image_change_effect_order_witness :
  let imgs := Home.filteredImages (Client.home demo_loaded) in
  let a1 := Client.commitImage (Home.toImageData "PAS_2.jpg") (Some demo_loaded_state) demo_loaded in
  Client.selectImage (Home.toImageData "PAS_2.jpg") (Some demo_loaded_state) demo_loaded = Client.runEffects a1 /\
  Client.viewer a1 = Some demo_loaded_state /\
  FullPageViewer.loadingIndicator (FullPageViewer.render (Home.toImageData "PAS_2.jpg") imgs demo_loaded_state) = false /\
  (exists a2 st2, Client.dispatch (Client.runEffects a1) (Client.ViewerInput FullPageViewer.ImageLoad) = Some a2 /\
     Client.viewer a2 = Some st2 /\
     FullPageViewer.loadingIndicator (FullPageViewer.render (Home.toImageData "PAS_2.jpg") imgs st2) = false) /\
  (exists a2 st2, Client.dispatch a1 (Client.ViewerInput FullPageViewer.ImageLoad) = Some a2 /\
     Client.viewer (Client.runEffects a2) = Some st2 /\
     FullPageViewer.loadingIndicator (FullPageViewer.render (Home.toImageData "PAS_2.jpg") imgs st2) = true).
Proof.
  apply (image_change_effect_order demo_loaded (Home.toImageData "HE_1.jpg")); [reflexivity | reflexivity | by vm_compute | reflexivity].
Defined.

Lemma image_load_commutes_witness :
  FullPageViewer.local_input FullPageViewer.ToggleClick = true /\
  is_Some (Client.run demo_open [Client.ViewerInput FullPageViewer.ImageLoad; Client.ViewerInput FullPageViewer.ToggleClick]) /\
  Client.run demo_open [Client.ViewerInput FullPageViewer.ImageLoad; Client.ViewerInput FullPageViewer.ToggleClick] =
  Client.run demo_open [Client.ViewerInput FullPageViewer.ToggleClick; Client.ViewerInput FullPageViewer.ImageLoad].
Proof.
  split_and!; [reflexivity | by vm_compute; eexists |].
  apply image_load_commutes. reflexivity.
Defined.

(** A deployment whose image names are not URL-safe. *)
Definition odd_files : gmap path bytes :=
  <[ ["srv"; "app"; "public"; "jpegs"; "a%41.jpg"] := [Byte.x01] ]>
  (<[ ["srv"; "app"; "public"; "jpegs"; "aA.jpg"] := [Byte.x02] ]>
  (<[ ["srv"; "app"; "public"; "jpegs"; "50%.jpg"] := [Byte.x03] ]>
  (<[ ["srv"; "app"; "public"; "jpegs"; "b#1.jpg"] := [Byte.x04] ]> ∅))).

Definition odd_dirs : gmap path (list string) :=
  <[ ["srv"; "app"; "public"; "jpegs"] := ["a%41.jpg"; "aA.jpg"; "50%.jpg"; "b#1.jpg"] ]> ∅.

Definition odd_fs : MemFS := {| mfs_files := odd_files; mfs_dirs := odd_dirs; mfs_wf := eq_refl |}.

Definition odd_events : list Client.Event :=
  [Client.Fetched (FetchJson (JsonImages ["a%41.jpg"; "aA.jpg"; "50%.jpg"; "b#1.jpg"]))].

Definition odd_app : Client.App := default Client.init (Client.run Client.init odd_events).

(** C25. The page puts a listed file name into its URL as it is
    ([`/jpegs/${filename}`], without [encodeURIComponent]) and the server
    decodes the URL: in every state the client reaches against a server,
    for every image record the page holds, what the server looks up for
    its url is not the file name but [decodeURIComponent] of its part
    before the first [?] or [#], and a 400 answer when that decoding
    fails.  So a name with [%XY] is served as another file, a name with a
    stray [%] is answered 400, and a name with [#] or [?] asks for a
    truncated name. *)
Theorem listed_names_misserved `{FileSystem F} (fs : F) (cwd : path) a img :
  Client.reachable_on fs cwd a -> img ∈ Home.images (Client.home a) ->
  Server.serve fs cwd (url img) =
    if bool_decide (Server.url_path (filename img) = "") then Server.handle fs cwd ["jpegs"]
    else match Uri.decodeURIComponent (Server.url_path (filename img)) with
         | Some d => Server.handle fs cwd ["jpegs"; d]
         | None => mkResponse 400 BadRequestPage
         end.
Proof.
  intros Hr Himg. destruct (Listed_reachable_on fs cwd a Hr) as [Hl _].
  rewrite Forall_forall in Hl. destruct (Hl img Himg) as (Heq & Hp & _).
  rewrite Heq at 1. by apply serve_jpegs.
Qed.

Lemma listed_names_misserved_witness :
  Home.toImageData "a%41.jpg" ∈ Home.images (Client.home odd_app) /\
  readFileSync odd_fs (demo_cwd ++ ["public"; "jpegs"; "a%41.jpg"])%list = Some [Byte.x01] /\
  Server.serve odd_fs demo_cwd (url (Home.toImageData "a%41.jpg")) = mkResponse 200 (StaticFile [Byte.x02]).
Proof.
  split; [by left |]. split; [reflexivity |].
  rewrite (listed_names_misserved odd_fs demo_cwd odd_app); [reflexivity | | by left].
  apply (run_reachable_on odd_fs demo_cwd Client.init odd_events); [constructor | repeat constructor | reflexivity].
Defined.

