(* ===== verification/KeyListener.v ===== *)
(** * The viewer's window [keydown] listener and its dependencies

    [FullPageViewer] registers its [handleKeyDown] on [window] in an effect
    (src/app/components/FullPageViewer.tsx, lines 48-69) whose dependency
    array is [[onClose, goToPrevious, goToNext, showMask]]; the handler
    closes over the values of the render that registered it.  [Client]
    runs every key press with the values of the current render.  Here the
    client also carries the registered closure ([Module KeyListener]):
    after every commit the effect re-registers the listener when a
    dependency changed, and a key press runs the registered closure.  The
    theorem shows that the dependency array is complete: the registered
    closure always holds the current values, so this client does what
    [Client.dispatch] does. *)

From S2P Require Import Prelude JsString FileSystem Api Gallery Viewer Page Client.

Local Open Scope string_scope.

Module KeyListener.
Import Client.

(** The client with the closure the viewer has registered, if mounted. *)
Record LApp := mkLApp { lapp : App; registered : option FullPageViewer.Captured }.

(** The dependencies of the effect as React compares them after a
    commit: [onClose] ([handleCloseViewer]) and the [images] array
    ([filteredImages]) are new objects at every render of [Home], which
    re-renders exactly when its state changes; [goToPrevious] and
    [goToNext] change with [currentIndex] and [images]; and [showMask]. *)
Definition keydownDeps (a : App) : option (Home.State * Z * bool) :=
  match Home.selectedImage (home a), viewer a with
  | Some img, Some st =>
      Some (home a, FullPageViewer.currentIndex img (Home.filteredImages (home a)),
            FullPageViewer.showMask st)
  | _, _ => None
  end.

(** After the commit that leads from [before] to [after], the effect
    registers a new closure when a dependency changed (a mount included);
    the cleanup removes it on unmount. *)
Definition refresh (before after : App) (r : option FullPageViewer.Captured)
    : option FullPageViewer.Captured :=
  match Home.selectedImage (home after), viewer after with
  | Some img, Some st =>
      if bool_decide (keydownDeps before = keydownDeps after) then r
      else Some (FullPageViewer.capture img (Home.filteredImages (home after)) st)
  | _, _ => None
  end.

(** One event: a key press runs the registered closure, every other
    event is [dispatch]; then the effect runs. *)
Definition ldispatch (l : LApp) (e : Event) : option LApp :=
  let a := lapp l in
  let next :=
    match e, Home.selectedImage (home a), viewer a, registered l with
    | ViewerInput (FullPageViewer.KeyDown k), Some _, Some st, Some c =>
        let '(st', cb) := FullPageViewer.listener c st k in Some (applyCallback cb st' a)
    | _, _, _, _ => dispatch a e
    end in
  (fun a' => mkLApp a' (refresh a a' (registered l))) <$> next.

Definition linit : LApp := mkLApp init None.

(** The closure the current render would register. *)
Definition current (a : App) : option FullPageViewer.Captured :=
  match Home.selectedImage (home a), viewer a with
  | Some img, Some st => Some (FullPageViewer.capture img (Home.filteredImages (home a)) st)
  | _, _ => None
  end.

Inductive lreachable : LApp -> Prop :=
| lreach_init : lreachable linit
| lreach_step l e l' : lreachable l -> ldispatch l e = Some l' -> lreachable l'.

End KeyListener.

(** ** Lemmas *)

Section KeyListenerLemmas.
Import Client KeyListener.

(** When no dependency changed, the registered closure is still the
    current one. *)
Lemma refresh_current a a' : refresh a a' (current a) = current a'.
Proof.
  unfold refresh, current.
  destruct (Home.selectedImage (home a')) as [img'|] eqn:Hs', (viewer a') as [st'|] eqn:Hv'; try done.
  case_bool_decide as Hdeps; [| done].
  unfold keydownDeps in Hdeps. rewrite Hs', Hv' in Hdeps.
  destruct (Home.selectedImage (home a)) as [img|] eqn:Hs, (viewer a) as [st|] eqn:Hv; try discriminate.
  injection Hdeps as Hh _ Hm. rewrite Hh, Hs' in Hs. injection Hs as ->.
  unfold FullPageViewer.capture. by rewrite Hh, Hm.
Qed.

(** With the current closure registered, an event does what [dispatch]
    does, and the closure registered after it is again the current one. *)
Lemma ldispatch_current l e :
  registered l = current (lapp l) ->
  ldispatch l e = (fun a' => mkLApp a' (current a')) <$> dispatch (lapp l) e.
Proof.
  destruct l as [a r]. simpl. intros ->. unfold ldispatch. simpl.
  transitivity ((fun a' => mkLApp a' (refresh a a' (current a))) <$> dispatch a e).
  - f_equal. unfold current.
    destruct e as [r|t|ge|[k| | | | | | | |]]; try reflexivity.
    destruct (Home.selectedImage (home a)) as [img|] eqn:Hs, (viewer a) as [st|] eqn:Hv; try reflexivity.
    simpl. by rewrite Hs, Hv.
  - destruct (dispatch a e); simpl; [by rewrite refresh_current | done].
Qed.

End KeyListenerLemmas.

(** ** The dependency array is complete *)

Section KeyListenerProps.
Import Client KeyListener.

(** C18. The dependency array of the [keydown] effect is complete: in
    every state of the client that carries the registered listener, the
    listener holds the values of the current render ([currentIndex] and
    [images] of [goToPrevious] and [goToNext], and [showMask]); so every
    event, a key press included, does what [Client.dispatch] does, and
    the states reached are states of [Client]. *)
Theorem listener_never_stale l :
  lreachable l ->
  registered l = current (lapp l) /\ reachable (lapp l) /\
  forall e, ldispatch l e = (fun a' => mkLApp a' (current a')) <$> dispatch (lapp l) e.
Proof.
  intros Hl. assert (registered l = current (lapp l) /\ reachable (lapp l)) as [Hc Hr].
  { induction Hl as [|l e l' _ [Hc Hr] Hd]; [split; [done | constructor] |].
    rewrite ldispatch_current in Hd by done.
    destruct (dispatch (lapp l) e) as [a'|] eqn:He; [| done]. injection Hd as <-.
    split; [done | by eapply reach_step]. }
  split_and!; [done | done |]. intros e. by apply ldispatch_current.
Qed.

End KeyListenerProps.

(** ** Witness *)

Definition demo_fetch : Client.Event := Client.Fetched (FetchJson (JsonImages ["HE_a.jpg"; "HE_b.jpg"])).
Definition demo_click : Client.Event := Client.GalleryInput (ImageViewer.ClickItem 0).
Definition demo_toggle : Client.Event := Client.ViewerInput FullPageViewer.ToggleClick.

Definition demo_l1 : KeyListener.LApp := default KeyListener.linit (KeyListener.ldispatch KeyListener.linit demo_fetch).
Definition demo_l2 : KeyListener.LApp := default KeyListener.linit (KeyListener.ldispatch demo_l1 demo_click).
Definition demo_lapp : KeyListener.LApp := default KeyListener.linit (KeyListener.ldispatch demo_l2 demo_toggle).

Lemma listener_never_stale_witness :
  KeyListener.registered demo_lapp = KeyListener.current (KeyListener.lapp demo_lapp) /\
  Client.reachable (KeyListener.lapp demo_lapp) /\
  forall e, KeyListener.ldispatch demo_lapp e =
    (fun a' => KeyListener.mkLApp a' (KeyListener.current a')) <$> Client.dispatch (KeyListener.lapp demo_lapp) e.
Proof.
  apply listener_never_stale.
  apply (KeyListener.lreach_step demo_l2 demo_toggle); [| reflexivity].
  apply (KeyListener.lreach_step demo_l1 demo_click); [| reflexivity].
  apply (KeyListener.lreach_step KeyListener.linit demo_fetch); [constructor | reflexivity].
Defined.
